(** * Appearance context of the inbox UI (packages/js/src/ui/context/AppearanceContext.tsx)

    A shallow embedding of [AppearanceProvider] and [useAppearance]:
    the merge of default variables, base themes and the top-level
    appearance, the generated class registry, the style node the
    provider owns in the document, and the consumer-facing accessor. *)

From Stdlib Require Import List String Ascii Bool Arith Lia PrimFloat.
Import ListNotations.
Open Scope string_scope.

(** ** JavaScript objects

    A plain object is kept as the list of its own enumerable string-keyed
    properties in insertion order, which is the order [for..in] and the
    spread syntax enumerate them in (no key of this program is
    integer-like, so no key is reordered). *)
Module JsObject.

Definition t (V : Type) : Type := list (string * V).

(** The object literal [{}]. *)
Definition empty {V : Type} : t V := [].

(** [o[k]], [None] standing for [undefined] of a missing property. *)
Fixpoint get {V : Type} (k : string) (o : t V) : option V :=
  match o with
  | [] => None
  | (k', v) :: rest => if String.eqb k k' then Some v else get k rest
  end.

(** [o[k] = v]: an existing property keeps its place, a new one goes last. *)
Fixpoint set {V : Type} (k : string) (v : V) (o : t V) : t V :=
  match o with
  | [] => [(k, v)]
  | (k', v') :: rest =>
      if String.eqb k k' then (k', v) :: rest else (k', v') :: set k v rest
  end.

Definition ownKeys {V : Type} (o : t V) : list string := map fst o.

(** Copy of the own properties of [src] onto [target], as the spread
  [...src] inside an object literal does: for each own key of [src],
  in order, the value read from [src] is written to the target. *)
Definition assign {V : Type} (target src : t V) : t V :=
  fold_left
    (fun acc k => match get k src with Some v => set k v acc | None => acc end)
    (ownKeys src) target.

(** The object literal [{ ...a, ...b }]. *)
Definition spread2 {V : Type} (a b : t V) : t V := assign (assign empty a) b.

(** [x || {}] for an optional object [x]. *)
Definition orEmpty {V : Type} (x : option (t V)) : t V :=
  match x with Some o => o | None => empty end.

End JsObject.

(** ** Data model *)

(** [string | number]: a JavaScript number is a binary64 float. *)
Inductive CSSValue : Type :=
| CSSString (s : string)
| CSSNumber (n : PrimFloat.float).

Definition CSSProperties : Type := JsObject.t CSSValue.

(** [ElementStyles = string | CSSProperties]. *)
Inductive ElementStyles : Type :=
| ClassName (s : string)
| Styles (css : CSSProperties).

Definition appearanceKeys : list string :=
  [ "button";
    "popoverContent"; "popoverTrigger";
    "dropdownContent"; "dropdownTrigger"; "dropdownItem"; "dropdownItemLabel";
    "dropdownItemLabelContainer"; "dropdownItemLeftIcon"; "dropdownItemRightIcon";
    "tooltipContent"; "tooltipTrigger";
    "back__button";
    "skeletonText"; "skeletonAvatar"; "tabsRoot"; "tabsList"; "tabsContent";
    "tabsTrigger"; "dots";
    "root"; "bellIcon"; "bellContainer"; "bellDot"; "preferences__button";
    "preferencesContainer"; "inboxHeader"; "loading";
    "inbox__popoverTrigger"; "inbox__popoverContent";
    "notificationList"; "notificationListEmptyNoticeContainer";
    "notificationListEmptyNotice"; "notificationListEmptyNoticeIcon";
    "notification"; "notificationDot"; "notificationSubject"; "notificationBody";
    "notificationBodyContainer"; "notificationImage"; "notificationDate";
    "notificationDefaultActions"; "notificationCustomActions";
    "notificationPrimaryAction__button"; "notificationSecondaryAction__button";
    "notificationRead__button"; "notificationUnread__button";
    "notificationArchive__button"; "notificationUnarchive__button";
    "notificationsTabs__tabsRoot"; "notificationsTabs__tabsList";
    "notificationsTabs__tabsContent"; "notificationsTabs__tabsTrigger";
    "notificationsTabsTriggerLabel"; "notificationsTabsTriggerCount";
    "inboxStatus__title"; "inboxStatus__dropdownTrigger";
    "inboxStatus__dropdownContent"; "inboxStatus__dropdownItem";
    "inboxStatus__dropdownItemLabel"; "inboxStatus__dropdownItemLabelContainer";
    "inboxStatus__dropdownItemLeftIcon"; "inboxStatus__dropdownItemRightIcon";
    "moreActionsContainer"; "moreActions__dropdownTrigger";
    "moreActions__dropdownContent"; "moreActions__dropdownItem";
    "moreActions__dropdownItemLabel"; "moreActions__dropdownItemLeftIcon";
    "moreTabs__button"; "moreTabs__dots"; "moreTabs__dropdownTrigger";
    "moreTabs__dropdownContent"; "moreTabs__dropdownItem";
    "moreTabs__dropdownItemLabel"; "moreTabs__dropdownItemRightIcon";
    "workflowContainer"; "workflowLabel"; "workflowLabelContainer";
    "channelContainer"; "channelsContainer"; "channelLabel";
    "channelLabelContainer"; "channelDescription"; "channelSwitchContainer";
    "channelSwitch"; "channelSwitchThumb";
    "preferencesHeader"; "preferencesHeader__back__button";
    "preferencesHeader__title";
    "preferencesLoadingContainer" ].

(** The optional tokens of [Variables], kept as the object that holds them. *)
Definition Variables : Type := JsObject.t string.

(** [Partial<Record<AppearanceKey, ElementStyles>>]. *)
Definition Elements : Type := JsObject.t ElementStyles.

(** [Theme = Pick<AppearanceContextType, 'elements' | 'variables'>]. *)
Record Theme : Type := {
  variables : option Variables;
  elements : option Elements
}.

(** [baseTheme?: Theme | Theme[]]. *)
Inductive BaseTheme : Type :=
| SingleTheme (t : Theme)
| ThemeArray (ts : list Theme).

(** [Appearance = Theme & { baseTheme?: Theme | Theme[] }]. *)
Record Appearance : Type := {
  theme : Theme;
  baseTheme : option BaseTheme
}.

(** [ParentProps & { appearance?: Appearance } & { id: string }], without
    the children, which the provider only passes through. *)
Record AppearanceProviderProps : Type := {
  appearance : option Appearance;
  id : string
}.

(** The items [parseElements] returns, as the provider reads them. *)
Record ElementStyleData : Type := {
  key : string;
  rule : string;
  className : string
}.

Module AppearanceContext.

Record AppearanceContextType : Type := {
  variables : option Variables;
  elements : option Elements;
  appearanceKeyToCssInJsClass : JsObject.t string;
  id : string
}.

End AppearanceContext.

(** ** The document

    Elements are held by reference.  The document is flattened to the
    elements of [head] followed by those of [body], which is tree order;
    [detached] keeps the elements that exist but are in no document. *)
Module Dom.

Record Element : Type := {
  nodeRef : nat;
  tagName : string;
  id : string;
  innerHTML : string
}.

Record Document : Type := {
  head : list Element;
  body : list Element;
  detached : list Element
}.

Definition treeOrder (d : Document) : list Element := head d ++ body d.

Definition allNodes (d : Document) : list Element :=
  head d ++ body d ++ detached d.

Definition hasRef (r : nat) (e : Element) : bool := Nat.eqb (nodeRef e) r.

Definition hasId (i : string) (e : Element) : bool := String.eqb (id e) i.

Definition lookupNode (r : nat) (d : Document) : option Element :=
  find (hasRef r) (allNodes d).

(** [document.getElementById(i)]: the first element in tree order whose ID
    is [i].  An element whose [id] attribute is the empty string has no ID
    (DOM standard, 4.9 Interface Element), so the empty string finds
    nothing. *)
Definition getElementById (i : string) (d : Document) : option Element :=
  if String.eqb i "" then None else find (hasId i) (treeOrder d).

(** The elements of the document whose [id] attribute is [i]. *)
Definition nodesWithId (i : string) (d : Document) : list Element :=
  filter (hasId i) (treeOrder d).

Definition freshRef (d : Document) : nat :=
  S (list_max (map nodeRef (allNodes d))).

(** [document.createElement(tag)]: a new element, in no document yet. *)
Definition createElement (tag : string) (d : Document) : nat * Document :=
  let r := freshRef d in
  (r, {| head := head d; body := body d;
         detached := detached d ++
           [{| nodeRef := r; tagName := tag; id := ""; innerHTML := "" |}] |}).

Definition updateNode (r : nat) (f : Element -> Element) (d : Document)
  : Document :=
  let upd := map (fun e => if hasRef r e then f e else e) in
  {| head := upd (head d); body := upd (body d); detached := upd (detached d) |}.

(** [el.id = i]. *)
Definition setId (r : nat) (i : string) (d : Document) : Document :=
  updateNode r (fun e => {| nodeRef := nodeRef e; tagName := tagName e;
                            id := i; innerHTML := innerHTML e |}) d.

(** [el.innerHTML = text]; the style element has text content only. *)
Definition setInnerHTML (r : nat) (text : string) (d : Document) : Document :=
  updateNode r (fun e => {| nodeRef := nodeRef e; tagName := tagName e;
                            id := id e; innerHTML := text |}) d.

Definition without (r : nat) (l : list Element) : list Element :=
  filter (fun e => negb (hasRef r e)) l.

(** [document.head.appendChild(el)]: the element leaves the place it had
    and becomes the last child of [head]. *)
Definition appendChildToHead (r : nat) (d : Document) : Document :=
  match lookupNode r d with
  | Some e =>
      {| head := without r (head d) ++ [e];
         body := without r (body d);
         detached := without r (detached d) |}
  | None => d
  end.

(** [el.remove()]: an element that is in the document leaves it. *)
Definition remove (r : nat) (d : Document) : Document :=
  match find (hasRef r) (treeOrder d) with
  | Some e =>
      {| head := without r (head d);
         body := without r (body d);
         detached := detached d ++ [e] |}
  | None => d
  end.

(** The text the element [r] holds, if there is such an element. *)
Definition textOf (r : nat) (d : Document) : option string :=
  option_map innerHTML (lookupNode r d).

End Dom.

(** ** The provider *)

(** [createStore({ appearanceKeyToCssInJsClass: {} })]. *)
Record Store : Type := {
  appearanceKeyToCssInJsClass : JsObject.t string
}.

(** The reactive state one provider instance owns: the store, the three
    signals, and whether [onMount] registered the clean-up. *)
Record ProviderState : Type := {
  store : Store;
  styleElement : option nat;
  elementRules : list string;
  variableRules : list string;
  cleanupRegistered : bool
}.

Definition initialState : ProviderState :=
  {| store := {| appearanceKeyToCssInJsClass := JsObject.empty |};
     styleElement := None;
     elementRules := [];
     variableRules := [];
     cleanupRegistered := false |}.

Definition setStyleElement (r : nat) (st : ProviderState) : ProviderState :=
  {| store := store st; styleElement := Some r;
     elementRules := elementRules st; variableRules := variableRules st;
     cleanupRegistered := cleanupRegistered st |}.

Definition setElementRules (rs : list string) (st : ProviderState)
  : ProviderState :=
  {| store := store st; styleElement := styleElement st;
     elementRules := rs; variableRules := variableRules st;
     cleanupRegistered := cleanupRegistered st |}.

Definition setVariableRules (rs : list string) (st : ProviderState)
  : ProviderState :=
  {| store := store st; styleElement := styleElement st;
     elementRules := elementRules st; variableRules := rs;
     cleanupRegistered := cleanupRegistered st |}.

(** [setStore('appearanceKeyToCssInJsClass', f)]. *)
Definition setStore (f : JsObject.t string -> JsObject.t string)
  (st : ProviderState) : ProviderState :=
  {| store := {| appearanceKeyToCssInJsClass :=
                   f (appearanceKeyToCssInJsClass (store st)) |};
     styleElement := styleElement st;
     elementRules := elementRules st; variableRules := variableRules st;
     cleanupRegistered := cleanupRegistered st |}.

Definition onCleanup (st : ProviderState) : ProviderState :=
  {| store := store st; styleElement := styleElement st;
     elementRules := elementRules st; variableRules := variableRules st;
     cleanupRegistered := true |}.

(** [props.appearance?.baseTheme]. *)
Definition appearanceBaseTheme (props : AppearanceProviderProps)
  : option BaseTheme :=
  match appearance props with Some a => baseTheme a | None => None end.

(** [props.appearance?.variables]. *)
Definition appearanceVariables (props : AppearanceProviderProps)
  : option Variables :=
  match appearance props with Some a => variables (theme a) | None => None end.

(** [props.appearance?.elements]. *)
Definition appearanceElements (props : AppearanceProviderProps)
  : option Elements :=
  match appearance props with Some a => elements (theme a) | None => None end.

(** The theme [{}]. *)
Definition emptyTheme : Theme := {| variables := None; elements := None |}.

(** The memo [themes]: the array as given, or the single theme (the empty
    one when none is given) in an array of its own. *)
Definition themes (props : AppearanceProviderProps) : list Theme :=
  match appearanceBaseTheme props with
  | Some (ThemeArray ts) => ts
  | Some (SingleTheme t) => [t]
  | None => [emptyTheme]
  end.

(** [themes().reduce((acc, obj) => ({ ...acc, ...(obj.variables || {}) }), {})]. *)
Definition reduceVariables (ts : list Theme) : Variables :=
  fold_left
    (fun acc obj => JsObject.spread2 acc (JsObject.orEmpty (variables obj)))
    ts JsObject.empty.

(** [themes().reduce((acc, obj) => ({ ...acc, ...(obj.elements || {}) }), {})]. *)
Definition reduceElements (ts : list Theme) : Elements :=
  fold_left
    (fun acc obj => JsObject.spread2 acc (JsObject.orEmpty (elements obj)))
    ts JsObject.empty.

(** The argument of [parseElements] in the elements effect. *)
Definition effectiveElements (props : AppearanceProviderProps) : Elements :=
  let baseElements := reduceElements (themes props) in
  JsObject.spread2 baseElements (JsObject.orEmpty (appearanceElements props)).

(** [elementsStyleData.reduce((acc, item) => { acc[item.key] = item.className;
    return acc }, {})]. *)
Definition classesByKey (elementsStyleData : list ElementStyleData)
  : JsObject.t string :=
  fold_left (fun acc item => JsObject.set (key item) (className item) acc)
    elementsStyleData JsObject.empty.

(** [onMount]: adopt the element the document has under [props.id], or
    create a [style] element, give it the id, append it to [head] and
    register the clean-up. *)
Definition onMount (props : AppearanceProviderProps)
  (st : ProviderState) (d : Dom.Document) : ProviderState * Dom.Document :=
  match Dom.getElementById (id props) d with
  | Some el => (setStyleElement (Dom.nodeRef el) st, d)
  | None =>
      let '(styleEl, d1) := Dom.createElement "style" d in
      let d2 := Dom.setId styleEl (id props) d1 in
      let d3 := Dom.appendChildToHead styleEl d2 in
      (onCleanup (setStyleElement styleEl st), d3)
  end.

(** The function given to [onCleanup]. *)
Definition removeStyleElement (props : AppearanceProviderProps)
  (d : Dom.Document) : Dom.Document :=
  match Dom.getElementById (id props) d with
  | Some element => Dom.remove (Dom.nodeRef element) d
  | None => d
  end.

(** Disposal of the provider: the registered clean-ups run. *)
Definition dispose (props : AppearanceProviderProps)
  (st : ProviderState) (d : Dom.Document) : Dom.Document :=
  if cleanupRegistered st then removeStyleElement props d else d.

(** The third effect: [styleEl.innerHTML = [...variableRules(),
    ...elementRules()].join(' ')]. *)
Definition writeRulesEffect (st : ProviderState) (d : Dom.Document)
  : Dom.Document :=
  match styleElement st with
  | None => d
  | Some styleEl =>
      Dom.setInnerHTML styleEl
        (String.concat " " (variableRules st ++ elementRules st)) d
  end.

Section Provider.

(** The imports the provider uses: [defaultVariables] of [../config],
    [parseVariables] and [parseElements] of [../helpers]. *)
Variable defaultVariables : Variables.
Variable parseVariables : Variables -> string -> list string.
Variable parseElements : Elements -> list ElementStyleData.

(** The argument of [parseVariables] in the variables effect. *)
Definition effectiveVariables (props : AppearanceProviderProps) : Variables :=
  let baseVariables :=
    JsObject.spread2 defaultVariables (reduceVariables (themes props)) in
  JsObject.spread2 baseVariables (JsObject.orEmpty (appearanceVariables props)).

(** The first effect (handle variables). *)
Definition variablesEffect (props : AppearanceProviderProps)
  (st : ProviderState) : ProviderState :=
  match styleElement st with
  | None => st
  | Some _ =>
      setVariableRules (parseVariables (effectiveVariables props) (id props)) st
  end.

(** The second effect (handle elements). *)
Definition elementsEffect (props : AppearanceProviderProps)
  (st : ProviderState) : ProviderState :=
  match styleElement st with
  | None => st
  | Some _ =>
      let elementsStyleData := parseElements (effectiveElements props) in
      let st1 :=
        setStore
          (fun obj => JsObject.spread2 obj (classesByKey elementsStyleData)) st in
      setElementRules (map rule elementsStyleData) st1
  end.

(** One recomputation: the two rule effects, then the effect that writes
    the rules, which reads the signals the first two set. *)
Definition recompute (props : AppearanceProviderProps)
  (st : ProviderState) (d : Dom.Document) : ProviderState * Dom.Document :=
  let st2 := elementsEffect props (variablesEffect props st) in
  (st2, writeRulesEffect st2 d).

(** First render of an instance: [onMount], then the effects. *)
Definition mountAndRender (props : AppearanceProviderProps)
  (d : Dom.Document) : ProviderState * Dom.Document :=
  let '(st, d1) := onMount props initialState d in
  recompute props st d1.

(** The value handed to [AppearanceContext.Provider].  The object is
    built once, when the provider renders: the Provider reads its [value]
    once and does not track it.  [rendered] are the props of that render,
    from which [elements] and [id] are taken for good;
    [appearanceKeyToCssInJsClass] is the object of the store, which a
    consumer reads as it is in the state [st] at the time of the read. *)
Definition contextValue (rendered : AppearanceProviderProps)
  (st : ProviderState) : AppearanceContext.AppearanceContextType :=
  {| AppearanceContext.variables := None;
     AppearanceContext.elements :=
       Some (JsObject.orEmpty (appearanceElements rendered));
     AppearanceContext.appearanceKeyToCssInJsClass :=
       appearanceKeyToCssInJsClass (store st);
     AppearanceContext.id := id rendered |}.

(** What happens to one instance, in any order a scheduler may pick. *)
Inductive Event : Type :=
| Mounted
| VariablesEffectRun
| ElementsEffectRun
| WriteRulesEffectRun
| AppearanceChanged (a : option Appearance)
| Disposed.

Record Instance : Type := {
  props : AppearanceProviderProps;
  state : ProviderState;
  document : Dom.Document
}.

Definition step (i : Instance) (ev : Event) : Instance :=
  match ev with
  | Mounted =>
      let '(st, d) := onMount (props i) (state i) (document i) in
      {| props := props i; state := st; document := d |}
  | VariablesEffectRun =>
      {| props := props i; state := variablesEffect (props i) (state i);
         document := document i |}
  | ElementsEffectRun =>
      {| props := props i; state := elementsEffect (props i) (state i);
         document := document i |}
  | WriteRulesEffectRun =>
      {| props := props i; state := state i;
         document := writeRulesEffect (state i) (document i) |}
  | AppearanceChanged a =>
      {| props := {| appearance := a; id := id (props i) |};
         state := state i; document := document i |}
  | Disposed =>
      {| props := props i; state := state i;
         document := dispose (props i) (state i) (document i) |}
  end.

Definition run (i : Instance) (trace : list Event) : Instance :=
  fold_left step trace i.

End Provider.

(** ** The accessor *)

Inductive Error : Type := MkError (message : string).

(** How a call ends: with a value, or with a thrown error. *)
Inductive Completion (A : Type) : Type :=
| Normal (a : A)
| Throw (e : Error).

Arguments Normal {A} a.
Arguments Throw {A} e.

Definition bind {A B : Type} (c : Completion A) (k : A -> Completion B)
  : Completion B :=
  match c with
  | Normal a => k a
  | Throw e => Throw e
  end.

(** The values of the enclosing [AppearanceContext.Provider]s, innermost
    first. *)
Definition Scope : Type := list AppearanceContext.AppearanceContextType.

(** [useContext(AppearanceContext)]: the value of the nearest provider, or
    the default the context was created with, [undefined]. *)
Definition useContext (scope : Scope)
  : option AppearanceContext.AppearanceContextType :=
  match scope with
  | value :: _ => Some value
  | [] => None
  end.

Definition useAppearance (scope : Scope)
  : Completion AppearanceContext.AppearanceContextType :=
  match useContext scope with
  | None => Throw (MkError "useAppearance must be used within an AppearanceProvider")
  | Some context => Normal context
  end.

(** The scope the children of a provider are in: [rendered] are the props
    the provider was rendered with, [st] is its state now. *)
Definition childrenScope (rendered : AppearanceProviderProps)
  (st : ProviderState) (outer : Scope) : Scope :=
  contextValue rendered st :: outer.

(** ** The helpers the sources do not include *)
Module Helpers.

(** Modelled from the spec: the base key of a compound key, used by
    [parseElements] of [../helpers], which is not among the sources.  A
    key that contains the double underscore extends the key named by what
    follows its last double underscore; a key without one has no base. *)
Fixpoint baseKeyOf (k : string) : option string :=
  match k with
  | EmptyString => None
  | String c rest =>
      match baseKeyOf rest with
      | Some b => Some b
      | None =>
          match c, rest with
          | "_"%char, String "_"%char suffix => Some suffix
          | _, _ => None
          end
      end
  end.

Section ParseElements.

(** The scheme that names a style payload and the CSS text that binds the
    name to the payload are left open by the specification. *)
Variable generateClassName : CSSProperties -> string.
Variable synthesizeRule : string -> CSSProperties -> string.

(** Modelled from the spec: the class of one key taken alone in
    [parseElements] of [../helpers]: a string is a literal class name, a
    properties mapping gets a generated class name. *)
Definition ownClass (v : ElementStyles) : string :=
  match v with
  | ClassName s => s
  | Styles css => generateClassName css
  end.

(** Modelled from the spec: the rule of one key in [parseElements] of
    [../helpers]: none (the empty text) for a literal class name, the rule
    that binds the generated class to the properties otherwise. *)
Definition ownRule (v : ElementStyles) : string :=
  match v with
  | ClassName _ => ""
  | Styles css => synthesizeRule (generateClassName css) css
  end.

(** Modelled from the spec: the registry value of a key in
    [parseElements] of [../helpers]: for a compound key whose base key is
    in the map, the class of the base key, then the key's own class; the
    key's own class alone otherwise. *)
Definition registeredClass (els : Elements) (k : string) (v : ElementStyles)
  : string :=
  match baseKeyOf k with
  | Some b =>
      match JsObject.get b els with
      | Some bv => ownClass bv ++ " " ++ ownClass v
      | None => ownClass v
      end
  | None => ownClass v
  end.

Definition styleDataOf (els : Elements) (k : string)
  : list ElementStyleData :=
  match JsObject.get k els with
  | Some v => [{| key := k; rule := ownRule v; className := registeredClass els k v |}]
  | None => []
  end.

(** Modelled from the spec: [parseElements] of [../helpers], which is not
    among the sources (section 4.2, elements branch): one item for each
    key of the map, in the order of the keys. *)
Definition parseElements (els : Elements) : list ElementStyleData :=
  flat_map (styleDataOf els) (JsObject.ownKeys els).

End ParseElements.

End Helpers.

(** ** Sample parameters

    One choice of the parts left open, to run the provider on concrete
    inputs. *)
Module Sample.

Definition declaration (p : string * CSSValue) : string :=
  match snd p with
  | CSSString s => fst p ++ ":" ++ s
  | CSSNumber _ => fst p
  end.

Definition generateClassName (css : CSSProperties) : string :=
  "nv-" ++ String.concat "-" (map declaration css).

Definition synthesizeRule (cls : string) (css : CSSProperties) : string :=
  "." ++ cls ++ "{" ++ String.concat ";" (map declaration css) ++ "}".

Definition parseElements : Elements -> list ElementStyleData :=
  Helpers.parseElements generateClassName synthesizeRule.

Definition parseVariables (vars : Variables) (scope : string) : list string :=
  map (fun p => "#" ++ scope ++ "{--" ++ fst p ++ ":" ++ snd p ++ "}") vars.

Definition defaultVariables : Variables := [("colorPrimary", "#000")].

Definition emptyDocument : Dom.Document :=
  {| Dom.head := []; Dom.body := []; Dom.detached := [] |}.

Definition propsOf (i : string) (els : Elements) : AppearanceProviderProps :=
  {| appearance :=
       Some {| theme := {| variables := None; elements := Some els |};
               baseTheme := None |};
     id := i |}.

End Sample.

(** ** The resolution the specification describes *)

(** The value of the last base theme, in array order, that defines the
    token [k]. *)
Fixpoint lastThemeValue (k : string) (ts : list Theme) : option string :=
  match ts with
  | [] => None
  | t :: rest =>
      match lastThemeValue k rest with
      | Some v => Some v
      | None => JsObject.get k (JsObject.orEmpty (variables t))
      end
  end.

(** Override, else last defining base theme, else default, else absent. *)
Definition resolvedVariable (defaults : Variables) (ts : list Theme)
  (overrides : Variables) (k : string) : option string :=
  match JsObject.get k overrides with
  | Some v => Some v
  | None =>
      match lastThemeValue k ts with
      | Some v => Some v
      | None => JsObject.get k defaults
      end
  end.

(** The class the last item keyed [k] carries. *)
Fixpoint lastClassFor (k : string) (items : list ElementStyleData)
  : option string :=
  match items with
  | [] => None
  | item :: rest =>
      match lastClassFor k rest with
      | Some c => Some c
      | None => if String.eqb k (key item) then Some (className item) else None
      end
  end.

(** ** Documents the provider moves through *)

(** The [style] element a provider creates, once it has its id. *)
Definition styleNode (r : nat) (i text : string) : Dom.Element :=
  {| Dom.nodeRef := r; Dom.tagName := "style"; Dom.id := i;
     Dom.innerHTML := text |}.

(** The document with one more child at the end of [head]. *)
Definition withHeadChild (e : Dom.Element) (d : Dom.Document) : Dom.Document :=
  {| Dom.head := Dom.head d ++ [e]; Dom.body := Dom.body d;
     Dom.detached := Dom.detached d |}.

(** One thing a provider instance, of any props and in any state, does to
    the document. *)
Inductive providerStep : Dom.Document -> Dom.Document -> Prop :=
| step_onMount props st d : providerStep d (snd (onMount props st d))
| step_dispose props st d : providerStep d (dispose props st d)
| step_writeRules st d : providerStep d (writeRulesEffect st d).

Inductive providerSteps : Dom.Document -> Dom.Document -> Prop :=
| steps_done d : providerSteps d d
| steps_more d1 d2 d3 :
    providerStep d1 d2 -> providerSteps d2 d3 -> providerSteps d1 d3.

(** No two elements of the document share a non-empty [id]. *)
Definition atMostOnePerId (d : Dom.Document) : Prop :=
  forall i : string, i <> "" -> List.length (Dom.nodesWithId i d) <= 1.

(** What the rule effects and the write effect have not touched yet. *)
Definition untouched (d0 : Dom.Document) (st : ProviderState)
  (d : Dom.Document) : Prop :=
  variableRules st = []
  /\ elementRules st = []
  /\ appearanceKeyToCssInJsClass (store st) = JsObject.empty
  /\ d = d0.

(** The text of the element the signal [styleElement] holds. *)
Definition styleText (i : ProviderState * Dom.Document) : option string :=
  match styleElement (fst i) with
  | Some r => Dom.textOf r (snd i)
  | None => None
  end.

(** The rules of the variables, then the rules of the elements, joined as
    [join(' ')] joins them. *)
Definition cssText (defaultVariables : Variables)
  (parseVariables : Variables -> string -> list string)
  (parseElements : Elements -> list ElementStyleData)
  (props : AppearanceProviderProps) : string :=
  String.concat " "
    (parseVariables (effectiveVariables defaultVariables props) (id props)
     ++ map rule (parseElements (effectiveElements props))).

(** Before [onMount]: no element held, no clean-up registered, nothing
    written. *)
Definition dormant (d0 : Dom.Document) (i : Instance) : Prop :=
  styleElement (state i) = None
  /\ cleanupRegistered (state i) = false
  /\ untouched d0 (state i) (document i).

(** The styles of the last base theme, in array order, that styles the
    key [k]. *)
Fixpoint lastThemeElement (k : string) (ts : list Theme)
  : option ElementStyles :=
  match ts with
  | [] => None
  | t :: rest =>
      match lastThemeElement k rest with
      | Some v => Some v
      | None => JsObject.get k (JsObject.orEmpty (elements t))
      end
  end.

(** What a document keeps of an element when only texts change. *)
Definition shapeOf (e : Dom.Element) : nat * string * string :=
  (Dom.nodeRef e, Dom.tagName e, Dom.id e).

Definition skeleton (d : Dom.Document)
  : list (nat * string * string) * list (nat * string * string)
    * list (nat * string * string) :=
  (map shapeOf (Dom.head d), map shapeOf (Dom.body d),
   map shapeOf (Dom.detached d)).

(** No two elements of the document are the same element. *)
Definition refsUnique (d : Dom.Document) : Prop :=
  NoDup (map Dom.nodeRef (Dom.treeOrder d)).

(** The registry of an instance. *)
Definition registryOf (i : Instance) : JsObject.t string :=
  appearanceKeyToCssInJsClass (store (state i)).

(** ** The provider as rendered

    A provider in the component tree: the props it was rendered with,
    which its context value keeps, and the instance as it is now, whose
    props follow the caller. *)
Record RenderedProvider : Type := {
  renderedWith : AppearanceProviderProps;
  instance : Instance
}.

Definition renderProvider (p : AppearanceProviderProps) (d : Dom.Document)
  : RenderedProvider :=
  {| renderedWith := p;
     instance := {| props := p; state := initialState; document := d |} |}.

Definition afterEvents (defaultVariables : Variables)
  (parseVariables : Variables -> string -> list string)
  (parseElements : Elements -> list ElementStyleData)
  (r : RenderedProvider) (trace : list Event) : RenderedProvider :=
  {| renderedWith := renderedWith r;
     instance :=
       run defaultVariables parseVariables parseElements (instance r) trace |}.

(** The scope a consumer under the provider calls the accessor in. *)
Definition consumerScope (r : RenderedProvider) (outer : Scope) : Scope :=
  childrenScope (renderedWith r) (state (instance r)) outer.

(** A generator of fresh class names, for concrete runs: the name is what
    the run draws (the value of a counter, a random string), whatever the
    payload is. *)
Module Fresh.

Definition generateClassName (draw : string) (css : CSSProperties) : string :=
  "nv-" ++ draw.

Definition parseElements (draw : string) : Elements -> list ElementStyleData :=
  Helpers.parseElements (generateClassName draw) Sample.synthesizeRule.

End Fresh.

(** ** Facts on objects *)
Section ObjectFacts.
Import JsObject.
Context {V : Type}.
Implicit Types (o a b target src : t V) (k : string) (v : V).

Lemma get_set k k' v o :
  get k (set k' v o) = if String.eqb k k' then Some v else get k o.
Proof.
  induction o as [|[k0 v0] rest IH]; simpl.
  - destruct (String.eqb k k'); reflexivity.
  - destruct (String.eqb_spec k' k0) as [->|Hne]; simpl.
    + destruct (String.eqb k k0); reflexivity.
    + rewrite IH.
      destruct (String.eqb_spec k k0) as [->|Hne'].
      * destruct (String.eqb_spec k0 k') as [E|_]; [congruence|reflexivity].
      * reflexivity.
Qed.

Lemma get_In_keys k o : In k (ownKeys o) <-> get k o <> None.
Proof.
  induction o as [|[k0 v0] rest IH]; simpl.
  - split; [tauto | congruence].
  - destruct (String.eqb_spec k k0) as [->|Hne].
    + split; [discriminate | auto].
    + rewrite <- IH. split; [intros [E|H]; [congruence|exact H] | auto].
Qed.

Lemma ownKeys_set k v o :
  forall x, In x (ownKeys (set k v o)) <-> x = k \/ In x (ownKeys o).
Proof.
  intros x. rewrite !get_In_keys, get_set.
  destruct (String.eqb_spec x k) as [->|Hne].
  - split; [auto | discriminate].
  - split; [auto | intros [E|H]; [congruence | exact H]].
Qed.

(** Copying the keys [ks] of [src]: a key among [ks] that [src] defines
    takes the value of [src]; every other key keeps the target's. *)
Lemma get_assign_keys src k ks : forall target,
  get k (fold_left
           (fun acc k0 =>
              match get k0 src with Some v => set k0 v acc | None => acc end)
           ks target)
  = if in_dec string_dec k ks
    then match get k src with Some v => Some v | None => get k target end
    else get k target.
Proof.
  induction ks as [|k0 ks IH]; intros target; simpl.
  - reflexivity.
  - rewrite IH. clear IH.
    destruct (string_dec k0 k) as [->|Hne].
    + destruct (get k src) as [v|] eqn:E.
      * rewrite get_set, String.eqb_refl.
        destruct (in_dec string_dec k ks); reflexivity.
      * destruct (in_dec string_dec k ks); reflexivity.
    + assert (Hstep :
        get k (match get k0 src with
               | Some v => set k0 v target
               | None => target
               end) = get k target).
      { destruct (get k0 src); [|reflexivity].
        rewrite get_set.
        destruct (String.eqb_spec k k0); [congruence|reflexivity]. }
      rewrite Hstep.
      destruct (in_dec string_dec k ks); reflexivity.
Qed.

Lemma get_assign k target src :
  get k (assign target src)
  = match get k src with Some v => Some v | None => get k target end.
Proof.
  unfold assign. rewrite get_assign_keys.
  destruct (in_dec string_dec k (ownKeys src)) as [Hin|Hnin].
  - reflexivity.
  - destruct (get k src) eqn:E; [|reflexivity].
    exfalso. apply Hnin. apply get_In_keys. congruence.
Qed.

(** Later sources win: the reading of [{ ...a, ...b }] at a key. *)
Lemma get_spread2 k a b :
  get k (spread2 a b)
  = match get k b with Some v => Some v | None => get k a end.
Proof.
  unfold spread2. rewrite !get_assign. simpl.
  destruct (get k b); [reflexivity|]. destruct (get k a); reflexivity.
Qed.

Lemma ownKeys_assign target src :
  forall x, In x (ownKeys (assign target src))
            <-> In x (ownKeys target) \/ In x (ownKeys src).
Proof.
  intros x. rewrite !get_In_keys, get_assign.
  destruct (get x src) as [v|].
  - split; [intros _; right; discriminate | intros _; discriminate].
  - split; [auto | intros [H|H]; [exact H | congruence]].
Qed.

Lemma ownKeys_spread2 a b :
  forall x, In x (ownKeys (spread2 a b))
            <-> In x (ownKeys a) \/ In x (ownKeys b).
Proof.
  intros x. unfold spread2. rewrite !ownKeys_assign. simpl. tauto.
Qed.

End ObjectFacts.
(** ** Resolution of the variables *)

Lemma get_reduceVariables_from (k : string) (ts : list Theme) :
  forall acc : Variables,
    JsObject.get k
      (fold_left
         (fun acc obj => JsObject.spread2 acc (JsObject.orEmpty (variables obj)))
         ts acc)
    = match lastThemeValue k ts with
      | Some v => Some v
      | None => JsObject.get k acc
      end.
Proof.
  induction ts as [|t rest IH]; intros acc; simpl.
  - reflexivity.
  - rewrite IH, get_spread2.
    destruct (lastThemeValue k rest); [reflexivity|].
    destruct (JsObject.get k (JsObject.orEmpty (variables t))); reflexivity.
Qed.

Lemma get_reduceVariables (k : string) (ts : list Theme) :
  JsObject.get k (reduceVariables ts) = lastThemeValue k ts.
Proof.
  unfold reduceVariables. rewrite get_reduceVariables_from. simpl.
  destruct (lastThemeValue k ts); reflexivity.
Qed.

(** C1. For every set of defaults, every list of base themes and every
    top-level appearance, the effective value of a token is the top-level
    override when there is one, otherwise the value of the last base theme
    in array order that defines the token, otherwise the default, and the
    token is absent when no layer defines it.  With defaults
    [{colorPrimary:"#000"}], the base theme
    [{variables:{colorPrimary:"#111", fontSize:"14px"}}] (given alone or
    in an array) and the top-level [{variables:{fontSize:"16px"}}], the
    effective variables are [{colorPrimary:"#111", fontSize:"16px"}]. *)
Theorem effective_variable_precedence :
  (forall (defaultVariables : Variables) (props : AppearanceProviderProps)
          (k : string),
      JsObject.get k (effectiveVariables defaultVariables props)
      = resolvedVariable defaultVariables (themes props)
          (JsObject.orEmpty (appearanceVariables props)) k)
  /\ (let base :=
        {| variables := Some [("colorPrimary", "#111"); ("fontSize", "14px")];
           elements := None |} in
      let top := {| variables := Some [("fontSize", "16px")]; elements := None |} in
      forall i : string,
        effectiveVariables [("colorPrimary", "#000")]
          {| appearance := Some {| theme := top; baseTheme := Some (SingleTheme base) |};
             id := i |}
        = [("colorPrimary", "#111"); ("fontSize", "16px")]
        /\ effectiveVariables [("colorPrimary", "#000")]
             {| appearance := Some {| theme := top; baseTheme := Some (ThemeArray [base]) |};
                id := i |}
           = [("colorPrimary", "#111"); ("fontSize", "16px")]).
Proof.
  split.
  - intros defaultVariables props k.
    unfold effectiveVariables, resolvedVariable.
    rewrite !get_spread2, get_reduceVariables. reflexivity.
  - intros base top i. split; reflexivity.
Qed.

(** ** The class registry *)

Lemma lastClassFor_app (k : string) (l1 l2 : list ElementStyleData) :
  lastClassFor k (l1 ++ l2)
  = match lastClassFor k l2 with
    | Some c => Some c
    | None => lastClassFor k l1
    end.
Proof.
  induction l1 as [|item l1 IH]; simpl.
  - destruct (lastClassFor k l2); reflexivity.
  - rewrite IH. destruct (lastClassFor k l2); reflexivity.
Qed.

Lemma get_classes_from (k : string) (items : list ElementStyleData) :
  forall acc : JsObject.t string,
    JsObject.get k
      (fold_left (fun acc item => JsObject.set (key item) (className item) acc)
         items acc)
    = match lastClassFor k items with
      | Some c => Some c
      | None => JsObject.get k acc
      end.
Proof.
  induction items as [|item rest IH]; intros acc; simpl.
  - reflexivity.
  - rewrite IH, get_set.
    destruct (lastClassFor k rest); [reflexivity|].
    destruct (String.eqb k (key item)); reflexivity.
Qed.

Lemma get_classesByKey (k : string) (items : list ElementStyleData) :
  JsObject.get k (classesByKey items) = lastClassFor k items.
Proof.
  unfold classesByKey. rewrite get_classes_from. simpl.
  destruct (lastClassFor k items); reflexivity.
Qed.

Lemma lastClassFor_In (k : string) (items : list ElementStyleData) :
  lastClassFor k items <> None <-> In k (map key items).
Proof.
  induction items as [|item rest IH]; simpl.
  - split; [congruence | tauto].
  - destruct (lastClassFor k rest) as [c|].
    + split; [intros _; right; apply IH; discriminate | discriminate].
    + destruct (String.eqb_spec k (key item)) as [->|Hne].
      * split; [auto | discriminate].
      * split; [congruence|].
        intros [E|H]; [congruence | apply IH in H; congruence].
Qed.

Lemma ownKeys_classesByKey (items : list ElementStyleData) (k : string) :
  In k (JsObject.ownKeys (classesByKey items)) <-> In k (map key items).
Proof.
  rewrite get_In_keys, get_classesByKey. apply lastClassFor_In.
Qed.

(** The registry an elements effect leaves, at a key: the class of the
    last item keyed so, or else what the registry held. *)
Lemma registry_after_elementsEffect
  (parseElements : Elements -> list ElementStyleData)
  (props : AppearanceProviderProps) (st : ProviderState) (n : nat) (k : string) :
  styleElement st = Some n ->
  JsObject.get k
    (appearanceKeyToCssInJsClass (store (elementsEffect parseElements props st)))
  = match lastClassFor k (parseElements (effectiveElements props)) with
    | Some c => Some c
    | None => JsObject.get k (appearanceKeyToCssInJsClass (store st))
    end.
Proof.
  intros Hnode. unfold elementsEffect. rewrite Hnode. simpl.
  rewrite get_spread2, get_classesByKey. reflexivity.
Qed.

Section ParseElementsFacts.

Variable generateClassName : CSSProperties -> string.
Variable synthesizeRule : string -> CSSProperties -> string.

Let parse := Helpers.parseElements generateClassName synthesizeRule.
Let classOf := Helpers.registeredClass generateClassName.

Lemma lastClassFor_styleData (els : Elements) (k : string) (ks : list string) :
  lastClassFor k
    (flat_map (Helpers.styleDataOf generateClassName synthesizeRule els) ks)
  = if in_dec string_dec k ks
    then option_map (classOf els k) (JsObject.get k els)
    else None.
Proof.
  induction ks as [|k0 ks IH]; simpl.
  - reflexivity.
  - rewrite lastClassFor_app, IH. clear IH.
    destruct (string_dec k0 k) as [->|Hne].
    + unfold Helpers.styleDataOf.
      destruct (JsObject.get k els) as [v|]; simpl.
      * rewrite String.eqb_refl.
        destruct (in_dec string_dec k ks); reflexivity.
      * destruct (in_dec string_dec k ks); reflexivity.
    + assert (Hother :
        lastClassFor k
          (Helpers.styleDataOf generateClassName synthesizeRule els k0) = None).
      { unfold Helpers.styleDataOf.
        destruct (JsObject.get k0 els); simpl; [|reflexivity].
        destruct (String.eqb_spec k k0); [congruence|reflexivity]. }
      rewrite Hother.
      destruct (in_dec string_dec k ks); [|reflexivity].
      destruct (option_map (classOf els k) (JsObject.get k els)); reflexivity.
Qed.

Lemma lastClassFor_parseElements (els : Elements) (k : string) :
  lastClassFor k (parse els) = option_map (classOf els k) (JsObject.get k els).
Proof.
  unfold parse, Helpers.parseElements. rewrite lastClassFor_styleData.
  destruct (in_dec string_dec k (JsObject.ownKeys els)) as [Hin|Hnin].
  - reflexivity.
  - destruct (JsObject.get k els) eqn:E; [|reflexivity].
    exfalso. apply Hnin. apply get_In_keys. congruence.
Qed.

Lemma keys_parseElements (els : Elements) (k : string) :
  In k (map key (parse els)) <-> In k (JsObject.ownKeys els).
Proof.
  rewrite <- lastClassFor_In, lastClassFor_parseElements, get_In_keys.
  destruct (JsObject.get k els); simpl; split; congruence.
Qed.

End ParseElementsFacts.

(** C2. When the elements effect has run on an effective element map that
    holds a compound key (one with the double underscore), the registry
    entry of the compound key is the class of its base key followed, after
    a space, by the compound key's own class when the base key is in the
    effective map, and the compound key's own class alone when the base
    key is not.  With the effective elements
    [{button:{color:"red"}, back__button:{padding:"4px"}}] the registry
    maps ["back__button"] to the class generated for [button], a space,
    and the class generated for [back__button]. *)
Theorem compound_key_registry_entry
  (generateClassName : CSSProperties -> string)
  (synthesizeRule : string -> CSSProperties -> string) :
  let parseElements := Helpers.parseElements generateClassName synthesizeRule in
  let ownClass := Helpers.ownClass generateClassName in
  let registry props st :=
    appearanceKeyToCssInJsClass (store (elementsEffect parseElements props st)) in
  (forall (props : AppearanceProviderProps) (st : ProviderState) (n : nat)
          (k b : string) (v : ElementStyles),
      styleElement st = Some n ->
      Helpers.baseKeyOf k = Some b ->
      JsObject.get k (effectiveElements props) = Some v ->
      JsObject.get k (registry props st)
      = Some match JsObject.get b (effectiveElements props) with
             | Some bv => ownClass bv ++ " " ++ ownClass v
             | None => ownClass v
             end)
  /\ (forall (props : AppearanceProviderProps) (st : ProviderState) (n : nat),
        styleElement st = Some n ->
        effectiveElements props
        = [("button", Styles [("color", CSSString "red")]);
           ("back__button", Styles [("padding", CSSString "4px")])] ->
        JsObject.get "back__button" (registry props st)
        = Some (generateClassName [("color", CSSString "red")] ++ " " ++
                generateClassName [("padding", CSSString "4px")])).
Proof.
  intros parseElements ownClass registry.
  assert (General :
    forall props st n k b v,
      styleElement st = Some n ->
      Helpers.baseKeyOf k = Some b ->
      JsObject.get k (effectiveElements props) = Some v ->
      JsObject.get k (registry props st)
      = Some match JsObject.get b (effectiveElements props) with
             | Some bv => ownClass bv ++ " " ++ ownClass v
             | None => ownClass v
             end).
  { intros props st n k b v Hnode Hbase Hk. unfold registry.
    rewrite (registry_after_elementsEffect parseElements props st n k Hnode).
    unfold parseElements. rewrite lastClassFor_parseElements, Hk. simpl.
    unfold Helpers.registeredClass. rewrite Hbase. reflexivity. }
  split; [exact General|].
  intros props st n Hnode Heff.
  rewrite (General props st n "back__button" "button"
             (Styles [("padding", CSSString "4px")]) Hnode eq_refl).
  - rewrite Heff. reflexivity.
  - rewrite Heff. reflexivity.
Qed.

Lemma compound_key_registry_entry_witness :
  let props :=
    Sample.propsOf "inbox"
      [("button", Styles [("color", CSSString "red")]);
       ("back__button", Styles [("padding", CSSString "4px")])] in
  let st := setStyleElement 1 initialState in
  JsObject.get "back__button"
    (appearanceKeyToCssInJsClass
       (store (elementsEffect Sample.parseElements props st)))
  = Some "nv-color:red nv-padding:4px".
Proof.
  intros props st.
  exact (proj1 (compound_key_registry_entry
                  Sample.generateClassName Sample.synthesizeRule)
           props st 1 "back__button" "button"
           (Styles [("padding", CSSString "4px")])
           eq_refl eq_refl eq_refl).
Defined.

(** The keys of the registry after an elements effect: those it held, and
    those of the items [parseElements] returned. *)
Lemma registry_keys_after_elementsEffect
  (parseElements : Elements -> list ElementStyleData)
  (props : AppearanceProviderProps) (st : ProviderState) (n : nat) (k : string) :
  styleElement st = Some n ->
  In k (JsObject.ownKeys
          (appearanceKeyToCssInJsClass
             (store (elementsEffect parseElements props st))))
  <-> In k (JsObject.ownKeys (appearanceKeyToCssInJsClass (store st)))
      \/ In k (map key (parseElements (effectiveElements props))).
Proof.
  intros Hnode. unfold elementsEffect. rewrite Hnode. simpl.
  rewrite ownKeys_spread2, ownKeys_classesByKey. reflexivity.
Qed.

(** C3, as the code has it.  After a recomputation of the element styles
    the keys of the registry are the keys it held before together with the
    keys of the currently effective element map: the new entries are
    merged into the old ones and no entry is ever removed.  The keys are
    within those of the effective map when the registry was empty before,
    as it is at the first recomputation. *)
Theorem registry_keys_accumulate
  (generateClassName : CSSProperties -> string)
  (synthesizeRule : string -> CSSProperties -> string)
  (props : AppearanceProviderProps) (st : ProviderState) (n : nat) :
  styleElement st = Some n ->
  let parseElements := Helpers.parseElements generateClassName synthesizeRule in
  let before := appearanceKeyToCssInJsClass (store st) in
  let after :=
    appearanceKeyToCssInJsClass (store (elementsEffect parseElements props st)) in
  (forall k, In k (JsObject.ownKeys after)
             <-> In k (JsObject.ownKeys before)
                 \/ In k (JsObject.ownKeys (effectiveElements props)))
  /\ (before = JsObject.empty ->
      incl (JsObject.ownKeys after) (JsObject.ownKeys (effectiveElements props))).
Proof.
  intros Hnode parseElements before after.
  assert (Keys : forall k,
    In k (JsObject.ownKeys after)
    <-> In k (JsObject.ownKeys before)
        \/ In k (JsObject.ownKeys (effectiveElements props))).
  { intros k. unfold after, before.
    rewrite (registry_keys_after_elementsEffect parseElements props st n k Hnode).
    unfold parseElements. rewrite keys_parseElements. reflexivity. }
  split; [exact Keys|].
  intros Hempty k Hk. apply Keys in Hk. rewrite Hempty in Hk.
  destruct Hk as [[]|Hk]. exact Hk.
Qed.

Lemma registry_keys_accumulate_witness :
  let props :=
    Sample.propsOf "inbox" [("button", Styles [("color", CSSString "red")])] in
  let st := setStyleElement 1 initialState in
  incl
    (JsObject.ownKeys
       (appearanceKeyToCssInJsClass
          (store (elementsEffect Sample.parseElements props st))))
    (JsObject.ownKeys (effectiveElements props)).
Proof.
  intros props st.
  exact (proj2 (registry_keys_accumulate
                  Sample.generateClassName Sample.synthesizeRule
                  props st 1 eq_refl) eq_refl).
Defined.

(** C3 as stated fails: the provider is mounted with the elements
    [{button:{color:"red"}}], then the appearance changes to one with no
    elements and the effects run again; [button] is still a key of the
    registry, and the effective element map has no key at all. *)
Lemma registry_keeps_removed_key :
  let props1 :=
    Sample.propsOf "inbox" [("button", Styles [("color", CSSString "red")])] in
  let props2 := Sample.propsOf "inbox" [] in
  let rerun := recompute Sample.defaultVariables Sample.parseVariables
                 Sample.parseElements in
  let mounted := mountAndRender Sample.defaultVariables Sample.parseVariables
                   Sample.parseElements props1 Sample.emptyDocument in
  let changed := rerun props2 (fst mounted) (snd mounted) in
  effectiveElements props2 = JsObject.empty
  /\ JsObject.get "button" (appearanceKeyToCssInJsClass (store (fst changed)))
     = Some "nv-color:red"
  /\ ~ incl (JsObject.ownKeys (appearanceKeyToCssInJsClass (store (fst changed))))
            (JsObject.ownKeys (effectiveElements props2)).
Proof.
  intros props1 props2 rerun mounted changed.
  split; [reflexivity|]. split; [reflexivity|].
  intros Hincl. apply (Hincl "button"). vm_compute. left. reflexivity.
Qed.

(** ** Facts on the document *)
Section DocumentFacts.

Local Open Scope list_scope.

Implicit Types (d : Dom.Document) (e : Dom.Element) (l : list Dom.Element)
  (r : nat) (i : string).

Lemma hasRef_true r e : Dom.hasRef r e = true <-> Dom.nodeRef e = r.
Proof. unfold Dom.hasRef. apply Nat.eqb_eq. Qed.

Lemma hasId_true i e : Dom.hasId i e = true <-> Dom.id e = i.
Proof. unfold Dom.hasId. apply String.eqb_eq. Qed.

Lemma freshRef_above d e : In e (Dom.allNodes d) -> Dom.nodeRef e < Dom.freshRef d.
Proof.
  intros Hin. unfold Dom.freshRef.
  assert (Hall : Forall (fun k => k <= list_max (map Dom.nodeRef (Dom.allNodes d)))
                   (map Dom.nodeRef (Dom.allNodes d))).
  { apply list_max_le. apply Nat.le_refl. }
  rewrite Forall_forall in Hall.
  specialize (Hall (Dom.nodeRef e) (in_map Dom.nodeRef _ _ Hin)). lia.
Qed.

Lemma freshRef_unused d e :
  In e (Dom.allNodes d) -> Dom.hasRef (Dom.freshRef d) e = false.
Proof.
  intros Hin. apply freshRef_above in Hin.
  unfold Dom.hasRef. apply Nat.eqb_neq. lia.
Qed.

Lemma update_unused r (f : Dom.Element -> Dom.Element) l :
  (forall e, In e l -> Dom.hasRef r e = false) ->
  map (fun e => if Dom.hasRef r e then f e else e) l = l.
Proof.
  induction l as [|e l IH]; intros Hno; simpl.
  - reflexivity.
  - rewrite (Hno e (or_introl eq_refl)), IH; [reflexivity|].
    intros e' He'. apply Hno. right. exact He'.
Qed.

Lemma without_unused r l :
  (forall e, In e l -> Dom.hasRef r e = false) -> Dom.without r l = l.
Proof.
  induction l as [|e l IH]; intros Hno; simpl.
  - reflexivity.
  - rewrite (Hno e (or_introl eq_refl)). simpl. rewrite IH; [reflexivity|].
    intros e' He'. apply Hno. right. exact He'.
Qed.

Lemma find_unused r l :
  (forall e, In e l -> Dom.hasRef r e = false) -> find (Dom.hasRef r) l = None.
Proof.
  induction l as [|e l IH]; intros Hno; simpl.
  - reflexivity.
  - rewrite (Hno e (or_introl eq_refl)). apply IH.
    intros e' He'. apply Hno. right. exact He'.
Qed.

Lemma without_app r l1 l2 :
  Dom.without r (l1 ++ l2) = Dom.without r l1 ++ Dom.without r l2.
Proof. unfold Dom.without. apply filter_app. Qed.

Lemma find_app (p : Dom.Element -> bool) l1 l2 :
  find p (l1 ++ l2)
  = match find p l1 with Some e => Some e | None => find p l2 end.
Proof.
  induction l1 as [|e l1 IH]; simpl; [reflexivity|].
  destruct (p e); [reflexivity | exact IH].
Qed.

(** An update that keeps the references acts on the element looked up. *)
Lemma find_update r (f : Dom.Element -> Dom.Element) l :
  (forall e, Dom.nodeRef (f e) = Dom.nodeRef e) ->
  find (Dom.hasRef r) (map (fun e => if Dom.hasRef r e then f e else e) l)
  = option_map f (find (Dom.hasRef r) l).
Proof.
  intros Hkeep. induction l as [|e l IH]; simpl; [reflexivity|].
  destruct (Dom.hasRef r e) eqn:E.
  - assert (Hf : Dom.hasRef r (f e) = true).
    { unfold Dom.hasRef in *. rewrite Hkeep. exact E. }
    rewrite Hf. reflexivity.
  - rewrite E. exact IH.
Qed.

Lemma allNodes_updateNode r (f : Dom.Element -> Dom.Element) d :
  Dom.allNodes (Dom.updateNode r f d)
  = map (fun e => if Dom.hasRef r e then f e else e) (Dom.allNodes d).
Proof. unfold Dom.allNodes, Dom.updateNode. simpl. rewrite !map_app. reflexivity. Qed.

(** Writing the text of an element that exists makes it the element's text,
    whatever the element held. *)
Lemma textOf_setInnerHTML r (text : string) d :
  Dom.lookupNode r d <> None ->
  Dom.textOf r (Dom.setInnerHTML r text d) = Some text.
Proof.
  intros Hex. unfold Dom.textOf, Dom.lookupNode, Dom.setInnerHTML.
  rewrite allNodes_updateNode, find_update by reflexivity.
  unfold Dom.lookupNode in Hex.
  destruct (find (Dom.hasRef r) (Dom.allNodes d)); [reflexivity | congruence].
Qed.

Lemma treeOrder_in_allNodes d e : In e (Dom.treeOrder d) -> In e (Dom.allNodes d).
Proof.
  unfold Dom.treeOrder, Dom.allNodes. rewrite !in_app_iff. tauto.
Qed.

Lemma lookupNode_of_member d e :
  In e (Dom.allNodes d) -> Dom.lookupNode (Dom.nodeRef e) d <> None.
Proof.
  intros Hin Hnone. unfold Dom.lookupNode in Hnone.
  apply (find_none _ _ Hnone) in Hin.
  unfold Dom.hasRef in Hin. rewrite Nat.eqb_refl in Hin. discriminate.
Qed.

Lemma getElementById_member i d e :
  Dom.getElementById i d = Some e ->
  In e (Dom.treeOrder d) /\ Dom.id e = i /\ i <> "".
Proof.
  unfold Dom.getElementById. destruct (String.eqb_spec i "") as [->|Hne].
  - discriminate.
  - intros Hfind. apply find_some in Hfind. destruct Hfind as [Hin Hid].
    apply hasId_true in Hid. auto.
Qed.

Lemma getElementById_none i d :
  i <> "" -> (Dom.getElementById i d = None <-> Dom.nodesWithId i d = []).
Proof.
  intros Hne. unfold Dom.getElementById, Dom.nodesWithId.
  destruct (String.eqb_spec i "") as [E|_]; [congruence|].
  induction (Dom.treeOrder d) as [|e l IH]; simpl.
  - tauto.
  - destruct (Dom.hasId i e); [split; discriminate | exact IH].
Qed.

(** The document a creating [onMount] leaves: the new [style] element,
    carrying the id and no text, is the last child of [head]. *)
Lemma create_style_element i d :
  let '(styleEl, d1) := Dom.createElement "style" d in
  styleEl = Dom.freshRef d
  /\ Dom.appendChildToHead styleEl (Dom.setId styleEl i d1)
     = withHeadChild (styleNode (Dom.freshRef d) i "") d.
Proof.
  simpl. split; [reflexivity|].
  set (r := Dom.freshRef d).
  assert (Hhead : forall e, In e (Dom.head d) -> Dom.hasRef r e = false).
  { intros e He. apply freshRef_unused. unfold Dom.allNodes.
    rewrite !in_app_iff. auto. }
  assert (Hbody : forall e, In e (Dom.body d) -> Dom.hasRef r e = false).
  { intros e He. apply freshRef_unused. unfold Dom.allNodes.
    rewrite !in_app_iff. auto. }
  assert (Hdet : forall e, In e (Dom.detached d) -> Dom.hasRef r e = false).
  { intros e He. apply freshRef_unused. unfold Dom.allNodes.
    rewrite !in_app_iff. auto. }
  assert (Hself : forall t, Dom.hasRef r (styleNode r i t) = true).
  { intros t. unfold Dom.hasRef. simpl. apply Nat.eqb_refl. }
  unfold Dom.setId, Dom.updateNode. simpl.
  rewrite map_app, !update_unused by assumption. simpl.
  assert (Hnew : Dom.hasRef r
            {| Dom.nodeRef := r; Dom.tagName := "style"; Dom.id := "";
               Dom.innerHTML := "" |} = true).
  { unfold Dom.hasRef. simpl. apply Nat.eqb_refl. }
  rewrite Hnew. simpl.
  unfold Dom.appendChildToHead, Dom.lookupNode, Dom.allNodes. simpl.
  rewrite !find_app, !find_unused by assumption. simpl.
  fold (styleNode r i ""). rewrite Hself.
  unfold withHeadChild. simpl.
  rewrite without_app, !without_unused by assumption.
  unfold Dom.without at 1. simpl. rewrite Hself. simpl.
  rewrite app_nil_r. reflexivity.
Qed.

(** [onMount] when the lookup finds nothing. *)
Lemma onMount_creates props st d :
  Dom.getElementById (id props) d = None ->
  onMount props st d
  = (onCleanup (setStyleElement (Dom.freshRef d) st),
     withHeadChild (styleNode (Dom.freshRef d) (id props) "") d).
Proof.
  intros Hnone. unfold onMount. rewrite Hnone.
  pose proof (create_style_element (id props) d) as Hc.
  destruct (Dom.createElement "style" d) as [styleEl d1].
  destruct Hc as [-> Hd]. rewrite Hd. reflexivity.
Qed.

(** [onMount] when the lookup finds an element. *)
Lemma onMount_adopts props st d el :
  Dom.getElementById (id props) d = Some el ->
  onMount props st d = (setStyleElement (Dom.nodeRef el) st, d).
Proof. intros Hsome. unfold onMount. rewrite Hsome. reflexivity. Qed.

(** After [onMount] the signal holds an element that exists. *)
Lemma onMount_node_exists props st d :
  exists r, styleElement (fst (onMount props st d)) = Some r
            /\ Dom.lookupNode r (snd (onMount props st d)) <> None.
Proof.
  destruct (Dom.getElementById (id props) d) as [el|] eqn:E.
  - rewrite (onMount_adopts _ _ _ _ E). simpl. exists (Dom.nodeRef el).
    split; [reflexivity|].
    apply getElementById_member in E. destruct E as [Hin _].
    apply lookupNode_of_member, treeOrder_in_allNodes, Hin.
  - rewrite (onMount_creates _ _ _ E). simpl. exists (Dom.freshRef d).
    split; [reflexivity|].
    apply (lookupNode_of_member _ (styleNode (Dom.freshRef d) (id props) "")).
    unfold Dom.allNodes, withHeadChild. simpl. rewrite !in_app_iff. simpl. auto.
Qed.

End DocumentFacts.

(** ** The text written to the style element *)
Section StyleText.

Variable defaultVariables : Variables.
Variable parseVariables : Variables -> string -> list string.
Variable parseElements : Elements -> list ElementStyleData.

Let recompute' := recompute defaultVariables parseVariables parseElements.
Let cssText' := cssText defaultVariables parseVariables parseElements.

Lemma append_assoc (a b c : string) : ((a ++ b) ++ c = a ++ (b ++ c))%string.
Proof. induction a as [|x a IH]; simpl; [reflexivity | rewrite IH; reflexivity]. Qed.

(** Joining two non-empty arrays of rules: the first joined, the
    separator, the second joined. *)
Lemma join_app (sep : string) (l1 l2 : list string) :
  l1 <> [] -> l2 <> [] ->
  String.concat sep (l1 ++ l2)
  = (String.concat sep l1 ++ sep ++ String.concat sep l2)%string.
Proof.
  intros H1 H2. induction l1 as [|x l1 IH]; [congruence|].
  destruct l1 as [|y l1].
  - destruct l2 as [|z l2]; [congruence|]. reflexivity.
  - change (String.concat sep ((x :: y :: l1) ++ l2))
      with (x ++ sep ++ String.concat sep ((y :: l1) ++ l2))%string.
    rewrite IH by discriminate.
    change (String.concat sep (x :: y :: l1))
      with (x ++ sep ++ String.concat sep (y :: l1))%string.
    rewrite !append_assoc. reflexivity.
Qed.

Lemma effects_keep_styleElement props st :
  styleElement (elementsEffect parseElements props
                  (variablesEffect defaultVariables parseVariables props st))
  = styleElement st.
Proof.
  assert (Hvar : styleElement
                   (variablesEffect defaultVariables parseVariables props st)
                 = styleElement st).
  { unfold variablesEffect. destruct (styleElement st) eqn:E; simpl; auto. }
  unfold elementsEffect. rewrite Hvar.
  destruct (styleElement st) eqn:E; simpl; auto.
Qed.

Lemma textOf_writeRulesEffect st d r :
  styleElement st = Some r ->
  Dom.lookupNode r d <> None ->
  Dom.textOf r (writeRulesEffect st d)
  = Some (String.concat " " (variableRules st ++ elementRules st)).
Proof.
  intros Hnode Hex. unfold writeRulesEffect. rewrite Hnode.
  apply textOf_setInnerHTML, Hex.
Qed.

Lemma rules_after_effects props st r :
  styleElement st = Some r ->
  let st2 := elementsEffect parseElements props
               (variablesEffect defaultVariables parseVariables props st) in
  variableRules st2
  = parseVariables (effectiveVariables defaultVariables props) (id props)
  /\ elementRules st2 = map rule (parseElements (effectiveElements props)).
Proof.
  intros Hnode. unfold elementsEffect, variablesEffect.
  rewrite Hnode. simpl. rewrite Hnode. simpl. split; reflexivity.
Qed.

(** What a recomputation leaves in the element: the text of the props. *)
Lemma styleText_recompute props st d r :
  styleElement st = Some r ->
  Dom.lookupNode r d <> None ->
  styleText (recompute' props st d) = Some (cssText' props).
Proof.
  intros Hnode Hex. unfold styleText, recompute', recompute. simpl.
  rewrite effects_keep_styleElement, Hnode.
  rewrite (textOf_writeRulesEffect _ d r);
    [| rewrite effects_keep_styleElement; exact Hnode | exact Hex].
  destruct (rules_after_effects props st r Hnode) as [-> ->]. reflexivity.
Qed.

Lemma styleText_mountAndRender props d :
  styleText (mountAndRender defaultVariables parseVariables parseElements props d)
  = Some (cssText' props).
Proof.
  unfold mountAndRender.
  destruct (onMount_node_exists props initialState d) as [r [Hnode Hex]].
  destruct (onMount props initialState d) as [st d1]. simpl in Hnode, Hex.
  apply (styleText_recompute props st d1 r Hnode Hex).
Qed.

(** C7. Each run of the rule-writing effect sets the whole text of the
    style element to the variable rules followed by the element rules,
    joined by single spaces, whatever text the element held; after a
    recomputation these are the rules of the current props.  When both
    arrays are non-empty the text is the joined variable rules, a space,
    and the joined element rules. *)
Theorem rules_overwrite_style_text (st : ProviderState) (d : Dom.Document)
  (r : nat) :
  styleElement st = Some r ->
  Dom.lookupNode r d <> None ->
  Dom.textOf r (writeRulesEffect st d)
  = Some (String.concat " " (variableRules st ++ elementRules st))
  /\ (variableRules st <> [] -> elementRules st <> [] ->
      Dom.textOf r (writeRulesEffect st d)
      = Some (String.concat " " (variableRules st) ++ " " ++
              String.concat " " (elementRules st))%string)
  /\ (forall props,
        styleText (recompute' props st d)
        = Some (String.concat " "
                  (parseVariables (effectiveVariables defaultVariables props)
                     (id props)
                   ++ map rule (parseElements (effectiveElements props))))).
Proof.
  intros Hnode Hex. split; [|split].
  - apply textOf_writeRulesEffect; assumption.
  - intros Hv He. rewrite (textOf_writeRulesEffect st d r Hnode Hex).
    rewrite join_app by assumption. reflexivity.
  - intros props. apply (styleText_recompute props st d r Hnode Hex).
Qed.

End StyleText.

(** ** Two runs *)
Section TwoRuns.

Variable defaultVariables : Variables.

(** What the helpers return in the first run and in the second.  A helper
    that draws its class names is not the same function of its arguments
    from one run to the next. *)
Variable parseVariables1 parseVariables2 : Variables -> string -> list string.
Variable parseElements1 parseElements2 : Elements -> list ElementStyleData.



End TwoRuns.



Lemma rules_overwrite_style_text_witness :
  let st := setElementRules [".b{}"]
              (setVariableRules ["#inbox{}"] (setStyleElement 1 initialState)) in
  let d := withHeadChild (styleNode 1 "inbox" "previous") Sample.emptyDocument in
  Dom.textOf 1 (writeRulesEffect st d) = Some "#inbox{} .b{}".
Proof.
  intros st d.
  refine (proj1 (rules_overwrite_style_text Sample.defaultVariables
                   Sample.parseVariables Sample.parseElements st d 1 _ _)).
  - reflexivity.
  - vm_compute. discriminate.
Defined.

(** ** The style element of an id *)
Section StyleElementFacts.

Local Open Scope list_scope.

Implicit Types (d : Dom.Document) (e : Dom.Element) (l : list Dom.Element)
  (r : nat) (i : string) (props : AppearanceProviderProps)
  (st : ProviderState).

Lemma filter_nil_find (p : Dom.Element -> bool) l :
  filter p l = [] -> find p l = None.
Proof.
  induction l as [|e l IH]; simpl; [reflexivity|].
  destruct (p e); [discriminate | exact IH].
Qed.

Lemma nodesWithId_withHeadChild i e d :
  Dom.nodesWithId i (withHeadChild e d)
  = filter (Dom.hasId i) (Dom.head d)
    ++ (if Dom.hasId i e then [e] else [])
    ++ filter (Dom.hasId i) (Dom.body d).
Proof.
  unfold Dom.nodesWithId, Dom.treeOrder, withHeadChild. simpl.
  rewrite !filter_app, <- app_assoc. simpl. reflexivity.
Qed.

Lemma nodesWithId_nil i d :
  Dom.nodesWithId i d = [] ->
  filter (Dom.hasId i) (Dom.head d) = []
  /\ filter (Dom.hasId i) (Dom.body d) = [].
Proof.
  unfold Dom.nodesWithId, Dom.treeOrder. rewrite filter_app.
  intros H. apply app_eq_nil in H. exact H.
Qed.

Lemma no_node_no_element i d :
  Dom.nodesWithId i d = [] -> Dom.getElementById i d = None.
Proof.
  intros Hnil. unfold Dom.getElementById.
  destruct (String.eqb i ""); [reflexivity|].
  apply filter_nil_find. exact Hnil.
Qed.

Lemma hasId_styleNode r i text : Dom.hasId i (styleNode r i text) = true.
Proof. unfold Dom.hasId. simpl. apply String.eqb_refl. Qed.

Lemma hasRef_styleNode r i text : Dom.hasRef r (styleNode r i text) = true.
Proof. unfold Dom.hasRef. simpl. apply Nat.eqb_refl. Qed.

(** The new element is the one the lookup finds afterwards. *)
Lemma getElementById_created r i text d :
  i <> "" -> Dom.nodesWithId i d = [] ->
  Dom.getElementById i (withHeadChild (styleNode r i text) d)
  = Some (styleNode r i text).
Proof.
  intros Hne Hnil. apply nodesWithId_nil in Hnil. destruct Hnil as [Hh _].
  unfold Dom.getElementById.
  destruct (String.eqb_spec i "") as [E|_]; [congruence|].
  unfold Dom.treeOrder, withHeadChild. simpl.
  rewrite !find_app, (filter_nil_find _ _ Hh). simpl.
  rewrite hasId_styleNode. reflexivity.
Qed.

(** Removing an element whose reference no other element carries. *)
Lemma remove_created r i text d :
  (forall e, In e (Dom.allNodes d) -> Dom.hasRef r e = false) ->
  Dom.remove r (withHeadChild (styleNode r i text) d)
  = {| Dom.head := Dom.head d; Dom.body := Dom.body d;
       Dom.detached := Dom.detached d ++ [styleNode r i text] |}.
Proof.
  intros Hfresh.
  assert (Hhead : forall e, In e (Dom.head d) -> Dom.hasRef r e = false).
  { intros e He. apply Hfresh. unfold Dom.allNodes. rewrite !in_app_iff. auto. }
  assert (Hbody : forall e, In e (Dom.body d) -> Dom.hasRef r e = false).
  { intros e He. apply Hfresh. unfold Dom.allNodes. rewrite !in_app_iff. auto. }
  unfold Dom.remove, Dom.treeOrder, withHeadChild. simpl.
  rewrite !find_app, (find_unused _ _ Hhead). simpl.
  rewrite hasRef_styleNode.
  rewrite without_app, (without_unused r (Dom.head d) Hhead),
    (without_unused r (Dom.body d) Hbody).
  unfold Dom.without. simpl. rewrite hasRef_styleNode. simpl.
  rewrite app_nil_r. reflexivity.
Qed.

(** Writing the text of the element just created. *)
Lemma setInnerHTML_created r i text text' d :
  (forall e, In e (Dom.allNodes d) -> Dom.hasRef r e = false) ->
  Dom.setInnerHTML r text' (withHeadChild (styleNode r i text) d)
  = withHeadChild (styleNode r i text') d.
Proof.
  intros Hfresh.
  assert (Hhead : forall e, In e (Dom.head d) -> Dom.hasRef r e = false).
  { intros e He. apply Hfresh. unfold Dom.allNodes. rewrite !in_app_iff. auto. }
  assert (Hbody : forall e, In e (Dom.body d) -> Dom.hasRef r e = false).
  { intros e He. apply Hfresh. unfold Dom.allNodes. rewrite !in_app_iff. auto. }
  assert (Hdet : forall e, In e (Dom.detached d) -> Dom.hasRef r e = false).
  { intros e He. apply Hfresh. unfold Dom.allNodes. rewrite !in_app_iff. auto. }
  unfold Dom.setInnerHTML, Dom.updateNode, withHeadChild. simpl.
  rewrite map_app, (update_unused r _ (Dom.head d) Hhead),
    (update_unused r _ (Dom.body d) Hbody),
    (update_unused r _ (Dom.detached d) Hdet). simpl.
  rewrite hasRef_styleNode. reflexivity.
Qed.

Lemma filter_filter_length (p q : Dom.Element -> bool) l :
  List.length (filter p (filter q l)) <= List.length (filter p l).
Proof.
  induction l as [|e l IH]; simpl; [lia|].
  destruct (q e); simpl; destruct (p e); simpl; lia.
Qed.

Lemma nodesWithId_remove_length i r d :
  List.length (Dom.nodesWithId i (Dom.remove r d))
  <= List.length (Dom.nodesWithId i d).
Proof.
  unfold Dom.remove.
  destruct (find (Dom.hasRef r) (Dom.treeOrder d)); [|lia].
  unfold Dom.nodesWithId, Dom.treeOrder. simpl.
  rewrite <- without_app. apply filter_filter_length.
Qed.

Lemma nodesWithId_setInnerHTML_length i r text d :
  List.length (Dom.nodesWithId i (Dom.setInnerHTML r text d))
  = List.length (Dom.nodesWithId i d).
Proof.
  unfold Dom.nodesWithId, Dom.treeOrder, Dom.setInnerHTML, Dom.updateNode. simpl.
  rewrite <- map_app.
  induction (Dom.head d ++ Dom.body d) as [|e l IH]; simpl; [reflexivity|].
  destruct (Dom.hasRef r e); unfold Dom.hasId at 1; simpl;
    fold (Dom.hasId i e); destruct (Dom.hasId i e); simpl; rewrite IH; reflexivity.
Qed.

Lemma atMostOnePerId_step d d' :
  providerStep d d' -> atMostOnePerId d -> atMostOnePerId d'.
Proof.
  intros Hstep Hone i Hne. specialize (Hone i Hne).
  destruct Hstep as [props st d | props st d | st d].
  - destruct (Dom.getElementById (id props) d) as [el|] eqn:E.
    + rewrite (onMount_adopts _ _ _ _ E). exact Hone.
    + rewrite (onMount_creates _ _ _ E). simpl.
      rewrite nodesWithId_withHeadChild.
      destruct (Dom.hasId i (styleNode (Dom.freshRef d) (id props) "")) eqn:Hid.
      * apply hasId_true in Hid. simpl in Hid. subst i.
        apply (getElementById_none _ d Hne) in E.
        apply nodesWithId_nil in E. destruct E as [-> ->]. simpl. lia.
      * simpl. unfold Dom.nodesWithId, Dom.treeOrder in Hone.
        rewrite filter_app in Hone. exact Hone.
  - unfold dispose, removeStyleElement.
    destruct (cleanupRegistered st); [|exact Hone].
    destruct (Dom.getElementById (id props) d); [|exact Hone].
    eapply Nat.le_trans; [apply nodesWithId_remove_length | exact Hone].
  - unfold writeRulesEffect. destruct (styleElement st); [|exact Hone].
    rewrite nodesWithId_setInnerHTML_length. exact Hone.
Qed.

(** Whatever provider instances do, no second element of an id appears. *)
Lemma atMostOnePerId_steps d d' :
  providerSteps d d' -> atMostOnePerId d -> atMostOnePerId d'.
Proof.
  induction 1 as [d | d1 d2 d3 Hstep _ IH]; intros Hone.
  - exact Hone.
  - apply IH. apply (atMostOnePerId_step d1 d2 Hstep Hone).
Qed.

(** Right after [onMount] the document has one element of the id. *)
Lemma onMount_exactly_one props st d :
  id props <> "" -> atMostOnePerId d ->
  List.length (Dom.nodesWithId (id props) (snd (onMount props st d))) = 1.
Proof.
  intros Hne Hone.
  destruct (Dom.getElementById (id props) d) as [el|] eqn:E.
  - rewrite (onMount_adopts _ _ _ _ E). simpl.
    specialize (Hone (id props) Hne).
    destruct (Dom.nodesWithId (id props) d) as [|e l] eqn:Hl.
    + apply (getElementById_none _ d Hne) in Hl. congruence.
    + simpl in *. lia.
  - rewrite (onMount_creates _ _ _ E). simpl.
    rewrite nodesWithId_withHeadChild, hasId_styleNode.
    apply (getElementById_none _ d Hne) in E.
    apply nodesWithId_nil in E. destruct E as [-> ->]. reflexivity.
Qed.

End StyleElementFacts.

(** C5, as the code has it.  When the document has no element of the id,
    [onMount] creates one [style] element of that id and holds it.  For a
    non-empty id, a second instance mounted with the same id adopts that
    element and leaves the document as it is; whatever provider instances
    do afterwards, a document that had no two elements of one non-empty id
    never gets two, and right after any [onMount] with a non-empty id it
    has exactly one element of that id. *)
Theorem one_style_node_per_id (i : string) (a1 a2 : option Appearance)
  (d : Dom.Document) :
  Dom.nodesWithId i d = [] ->
  let first := onMount {| appearance := a1; id := i |} initialState d in
  let second := onMount {| appearance := a2; id := i |} initialState (snd first) in
  (Dom.nodesWithId i (snd first) = [styleNode (Dom.freshRef d) i ""]
   /\ styleElement (fst first) = Some (Dom.freshRef d))
  /\ (i <> "" ->
      snd second = snd first
      /\ styleElement (fst second) = styleElement (fst first)
      /\ cleanupRegistered (fst second) = false
      /\ (atMostOnePerId d ->
          forall d', providerSteps (snd second) d' -> atMostOnePerId d')
      /\ (forall props st d0,
            id props = i -> atMostOnePerId d0 ->
            List.length (Dom.nodesWithId i (snd (onMount props st d0))) = 1)).
Proof.
  intros Hnil first second.
  pose proof (no_node_no_element i d Hnil) as Hnone.
  assert (Hfirst : first
            = (onCleanup (setStyleElement (Dom.freshRef d) initialState),
               withHeadChild (styleNode (Dom.freshRef d) i "") d)).
  { unfold first. apply onMount_creates. exact Hnone. }
  split.
  - rewrite Hfirst. simpl. split; [|reflexivity].
    rewrite nodesWithId_withHeadChild, hasId_styleNode.
    apply nodesWithId_nil in Hnil. destruct Hnil as [-> ->]. reflexivity.
  - intros Hne.
    assert (Hsecond : second
              = (setStyleElement (Dom.freshRef d) initialState, snd first)).
    { unfold second.
      rewrite (onMount_adopts _ _ _ (styleNode (Dom.freshRef d) i "")).
      - reflexivity.
      - rewrite Hfirst. simpl. apply getElementById_created; assumption. }
    rewrite Hsecond, Hfirst. simpl.
    split; [reflexivity|]. split; [reflexivity|]. split; [reflexivity|]. split.
    + intros Hone d' Hsteps.
      apply (atMostOnePerId_steps _ d' Hsteps).
      apply (atMostOnePerId_step d).
      * pose proof (step_onMount {| appearance := a1; id := i |} initialState d)
          as Hstep.
        fold first in Hstep. rewrite Hfirst in Hstep. exact Hstep.
      * exact Hone.
    + intros props st d0 Hid Hone. subst i.
      apply onMount_exactly_one; assumption.
Qed.

Lemma one_style_node_per_id_witness :
  let first := onMount (Sample.propsOf "inbox" []) initialState
                 Sample.emptyDocument in
  let second := onMount (Sample.propsOf "inbox" []) initialState (snd first) in
  snd second = snd first
  /\ styleElement (fst second) = styleElement (fst first)
  /\ cleanupRegistered (fst second) = false
  /\ (atMostOnePerId Sample.emptyDocument ->
      forall d', providerSteps (snd second) d' -> atMostOnePerId d')
  /\ (forall props st d0,
        id props = "inbox" -> atMostOnePerId d0 ->
        List.length (Dom.nodesWithId "inbox" (snd (onMount props st d0))) = 1).
Proof.
  intros first second.
  refine (proj2 (one_style_node_per_id "inbox"
                   (appearance (Sample.propsOf "inbox" []))
                   (appearance (Sample.propsOf "inbox" []))
                   Sample.emptyDocument _) _).
  - reflexivity.
  - discriminate.
Defined.

(** C5 as stated fails twice.  With the empty id the lookup finds nothing,
    so a second instance creates a second [style] element where the first
    one already stands.  With the id ["inbox"], when the instance that
    created the element is disposed of, the instance that adopted it is
    still mounted and the document has no element of the id. *)
Lemma style_node_not_always_one :
  (let p := Sample.propsOf "" [] in
   let first := onMount p initialState Sample.emptyDocument in
   let second := onMount p initialState (snd first) in
   styleElement (fst first) = Some 1
   /\ styleElement (fst second) = Some 2
   /\ Dom.treeOrder (snd second) = [styleNode 1 "" ""; styleNode 2 "" ""])
  /\ (let p := Sample.propsOf "inbox" [] in
      let creator := onMount p initialState Sample.emptyDocument in
      let adopter := onMount p initialState (snd creator) in
      let after := dispose p (fst creator) (snd adopter) in
      styleElement (fst adopter) = Some 1
      /\ Dom.nodesWithId "inbox" (snd adopter) = [styleNode 1 "inbox" ""]
      /\ Dom.nodesWithId "inbox" after = []).
Proof.
  split.
  - intros p first second. repeat split.
  - intros p creator adopter after. repeat split.
Qed.

(** ** Teardown *)
Section Teardown.

Local Open Scope list_scope.

Variable defaultVariables : Variables.
Variable parseVariables : Variables -> string -> list string.
Variable parseElements : Elements -> list ElementStyleData.

Let render := mountAndRender defaultVariables parseVariables parseElements.
Let text := cssText defaultVariables parseVariables parseElements.

Lemma effects_keep_cleanupRegistered props st :
  cleanupRegistered
    (elementsEffect parseElements props
       (variablesEffect defaultVariables parseVariables props st))
  = cleanupRegistered st.
Proof.
  assert (Hvar : forall s,
            cleanupRegistered
              (variablesEffect defaultVariables parseVariables props s)
            = cleanupRegistered s).
  { intros s. unfold variablesEffect. destruct (styleElement s); reflexivity. }
  unfold elementsEffect.
  destruct (styleElement _); simpl; apply Hvar.
Qed.

(** The first render of an instance that finds no element of its id. *)
Lemma render_creates props d :
  Dom.getElementById (id props) d = None ->
  snd (render props d)
  = withHeadChild (styleNode (Dom.freshRef d) (id props) (text props)) d
  /\ styleElement (fst (render props d)) = Some (Dom.freshRef d)
  /\ cleanupRegistered (fst (render props d)) = true.
Proof.
  intros Hnone. unfold render, mountAndRender.
  rewrite (onMount_creates _ _ _ Hnone). unfold recompute. cbn [fst snd].
  rewrite effects_keep_styleElement, effects_keep_cleanupRegistered.
  split; [|split; reflexivity].
  unfold writeRulesEffect. rewrite effects_keep_styleElement.
  cbn [styleElement onCleanup setStyleElement].
  rewrite setInnerHTML_created by (intros e He; apply freshRef_unused, He).
  destruct (rules_after_effects defaultVariables parseVariables parseElements
              props (onCleanup (setStyleElement (Dom.freshRef d) initialState))
              (Dom.freshRef d) eq_refl) as [-> ->].
  reflexivity.
Qed.

(** The first render of an instance that finds an element of its id. *)
Lemma render_adopts props d el :
  Dom.getElementById (id props) d = Some el ->
  styleElement (fst (render props d)) = Some (Dom.nodeRef el)
  /\ cleanupRegistered (fst (render props d)) = false.
Proof.
  intros Hsome. unfold render, mountAndRender.
  rewrite (onMount_adopts _ _ _ _ Hsome). unfold recompute. cbn [fst snd].
  rewrite effects_keep_styleElement, effects_keep_cleanupRegistered.
  split; reflexivity.
Qed.

(** Teardown where the lookup of the id can find the element.  The
    clean-up is registered exactly when
    [onMount] found no element of the id and created one.  An instance
    that adopted an element leaves every document as it is when it is
    disposed of.  The clean-up looks the id up and removes what it finds,
    and does nothing when it finds nothing.  For a non-empty id, the
    disposal of the instance that created the element takes the element
    out of the document, and the next [onMount] with the same id creates
    an element that did not exist before and holds no text. *)
Theorem teardown_removes_created_node (props : AppearanceProviderProps)
  (d : Dom.Document) :
  let mounted := render props d in
  let disposed := dispose props (fst mounted) (snd mounted) in
  let again := onMount props initialState disposed in
  (cleanupRegistered (fst mounted) = true
   <-> Dom.getElementById (id props) d = None)
  /\ (forall el, Dom.getElementById (id props) d = Some el ->
        snd (onMount props initialState d) = d
        /\ forall later, dispose props (fst mounted) later = later)
  /\ (forall st later,
        Dom.getElementById (id props) later = None ->
        dispose props st later = later)
  /\ (id props <> "" -> Dom.nodesWithId (id props) d = [] ->
      disposed
      = {| Dom.head := Dom.head d; Dom.body := Dom.body d;
           Dom.detached :=
             Dom.detached d
             ++ [styleNode (Dom.freshRef d) (id props) (text props)] |}
      /\ Dom.treeOrder disposed = Dom.treeOrder d
      /\ styleElement (fst again) = Some (Dom.freshRef disposed)
      /\ Dom.lookupNode (Dom.freshRef disposed) disposed = None
      /\ Dom.nodesWithId (id props) (snd again)
         = [styleNode (Dom.freshRef disposed) (id props) ""]).
Proof.
  intros mounted disposed again.
  split; [|split; [|split]].
  - unfold mounted.
    destruct (Dom.getElementById (id props) d) as [el|] eqn:E.
    + destruct (render_adopts props d el E) as [_ ->].
      split; discriminate.
    + destruct (render_creates props d E) as [_ [_ ->]].
      split; reflexivity.
  - intros el E. split.
    + rewrite (onMount_adopts _ _ _ _ E). reflexivity.
    + intros later. unfold dispose, mounted.
      destruct (render_adopts props d el E) as [_ ->]. reflexivity.
  - intros st later Hnone. unfold dispose, removeStyleElement.
    rewrite Hnone. destruct (cleanupRegistered st); reflexivity.
  - intros Hne Hnil.
    pose proof (no_node_no_element _ _ Hnil) as Hnone.
    destruct (render_creates props d Hnone) as [Hdoc [Hnode Hreg]].
    fold mounted in Hdoc, Hnode, Hreg.
    assert (Hdisposed :
      disposed
      = {| Dom.head := Dom.head d; Dom.body := Dom.body d;
           Dom.detached :=
             Dom.detached d
             ++ [styleNode (Dom.freshRef d) (id props) (text props)] |}).
    { unfold disposed, dispose, removeStyleElement.
      rewrite Hreg, Hdoc, getElementById_created by assumption. simpl.
      apply remove_created. intros e He. apply freshRef_unused, He. }
    assert (Htree : Dom.treeOrder disposed = Dom.treeOrder d).
    { rewrite Hdisposed. reflexivity. }
    assert (Hnil' : Dom.nodesWithId (id props) disposed = []).
    { unfold Dom.nodesWithId. rewrite Htree. exact Hnil. }
    assert (Hagain :
      again
      = (onCleanup (setStyleElement (Dom.freshRef disposed) initialState),
         withHeadChild (styleNode (Dom.freshRef disposed) (id props) "")
           disposed)).
    { unfold again. apply onMount_creates, no_node_no_element, Hnil'. }
    split; [exact Hdisposed|]. split; [exact Htree|].
    rewrite Hagain. simpl. split; [reflexivity|]. split.
    + unfold Dom.lookupNode. apply find_unused.
      intros e He. apply freshRef_unused, He.
    + rewrite nodesWithId_withHeadChild, hasId_styleNode.
      apply nodesWithId_nil in Hnil'. destruct Hnil' as [-> ->]. reflexivity.
Qed.

End Teardown.

Lemma teardown_removes_created_node_witness :
  let props := Sample.propsOf "inbox" [] in
  let mounted := mountAndRender Sample.defaultVariables Sample.parseVariables
                   Sample.parseElements props Sample.emptyDocument in
  let disposed := dispose props (fst mounted) (snd mounted) in
  let again := onMount props initialState disposed in
  disposed
  = {| Dom.head := []; Dom.body := [];
       Dom.detached := [styleNode 1 "inbox" "#inbox{--colorPrimary:#000}"] |}
  /\ Dom.treeOrder disposed = []
  /\ styleElement (fst again) = Some 2
  /\ Dom.lookupNode 2 disposed = None
  /\ Dom.nodesWithId "inbox" (snd again) = [styleNode 2 "inbox" ""].
Proof.
  intros props mounted disposed again.
  refine (proj2 (proj2 (proj2
            (teardown_removes_created_node Sample.defaultVariables
               Sample.parseVariables Sample.parseElements props
               Sample.emptyDocument))) _ _).
  - discriminate.
  - reflexivity.
Defined.

(** C6.  On the empty id the code misses what it does for every other
    id: the instance creates the [style] element and registers the
    clean-up, the clean-up looks the empty id up, finds nothing, and the
    element this instance created stays in the document after the
    teardown. *)
Lemma teardown_keeps_node_of_empty_id :
  let props := Sample.propsOf "" [] in
  let mounted := mountAndRender Sample.defaultVariables Sample.parseVariables
                   Sample.parseElements props Sample.emptyDocument in
  let disposed := dispose props (fst mounted) (snd mounted) in
  Dom.getElementById (id props) Sample.emptyDocument = None
  /\ cleanupRegistered (fst mounted) = true
  /\ styleElement (fst mounted) = Some 1
  /\ Dom.head (snd mounted) = [styleNode 1 "" "#{--colorPrimary:#000}"]
  /\ disposed = snd mounted.
Proof.
  intros props mounted disposed. repeat split.
Qed.

(** ** The accessor and the context value *)

(** C8. Called with no enclosing provider, [useAppearance] throws the
    error that names the missing provider, and every computation that
    goes on from the call ends with that same error, so no default stands
    in for the context; it throws in no other case, and under a provider
    it returns the value of that provider. *)
Theorem useAppearance_requires_provider :
  let missing :=
    MkError "useAppearance must be used within an AppearanceProvider" in
  useAppearance [] = Throw missing
  /\ (forall (B : Type)
             (k : AppearanceContext.AppearanceContextType -> Completion B),
        bind (useAppearance []) k = Throw missing)
  /\ (forall (scope : Scope) (e : Error),
        useAppearance scope = Throw e <-> scope = [] /\ e = missing)
  /\ (forall (props : AppearanceProviderProps) (st : ProviderState)
             (outer : Scope),
        useAppearance (childrenScope props st outer)
        = Normal (contextValue props st)).
Proof.
  intros missing. split; [reflexivity|]. split; [reflexivity|]. split.
  - intros scope e. destruct scope as [|value rest]; simpl.
    + split.
      * intros H. injection H as <-. split; reflexivity.
      * intros [_ ->]. reflexivity.
    + split; [discriminate | intros [H _]; discriminate].
  - reflexivity.
Qed.

Lemma get_reduceElements_from (k : string) (ts : list Theme) :
  forall acc : Elements,
    JsObject.get k
      (fold_left
         (fun acc obj => JsObject.spread2 acc (JsObject.orEmpty (elements obj)))
         ts acc) <> None
    <-> JsObject.get k acc <> None
        \/ exists t, In t ts /\ JsObject.get k (JsObject.orEmpty (elements t)) <> None.
Proof.
  induction ts as [|t rest IH]; intros acc; simpl.
  - split; [auto | intros [H|[t [[] _]]]; exact H].
  - rewrite IH, get_spread2. split.
    + intros [H|[t' [Hin Ht']]].
      * destruct (JsObject.get k (JsObject.orEmpty (elements t))) eqn:E.
        -- right. exists t. split; [auto | congruence].
        -- left. exact H.
      * right. exists t'. auto.
    + intros [H|[t' [[<-|Hin] Ht']]].
      * left. destruct (JsObject.get k (JsObject.orEmpty (elements t)));
          [discriminate | exact H].
      * left. destruct (JsObject.get k (JsObject.orEmpty (elements t)));
          [discriminate | congruence].
      * right. exists t'. auto.
Qed.

Lemma run_keeps_id (defaultVariables : Variables)
  (parseVariables : Variables -> string -> list string)
  (parseElements : Elements -> list ElementStyleData)
  (trace : list Event) :
  forall i : Instance,
    id (props (run defaultVariables parseVariables parseElements i trace))
    = id (props i).
Proof.
  induction trace as [|ev trace IH]; intros i; simpl; [reflexivity|].
  rewrite IH. destruct ev; simpl; try reflexivity.
  destruct (onMount (props i) (state i) (document i)); reflexivity.
Qed.

(** C10.  What the accessor exposes as [elements] is the top-level
    [appearance.elements] the provider was rendered with (the empty
    object when the appearance or its elements were absent), whatever
    happened to the instance since; no key that only a base theme styles
    is in it.  So it stops being the caller's top-level
    [appearance.elements] when the appearance changes: rendered with
    [{elements:{button:{color:"red"}}}] and then given
    [{elements:{root:"mine"}}], the provider re-runs its effects, the
    registry it exposes has the class of [root], and the [elements] it
    exposes still hold [button] and not [root]. *)
Theorem exposed_elements_are_first_render :
  (forall (defaultVariables : Variables)
          (parseVariables : Variables -> string -> list string)
          (parseElements : Elements -> list ElementStyleData)
          (p : AppearanceProviderProps) (d : Dom.Document)
          (trace : list Event) (outer : Scope),
      let now := afterEvents defaultVariables parseVariables parseElements
                   (renderProvider p d) trace in
      exists context,
        useAppearance (consumerScope now outer) = Normal context
        /\ AppearanceContext.elements context
           = Some (JsObject.orEmpty (appearanceElements p))
        /\ AppearanceContext.id context = id (props (instance now))
        /\ AppearanceContext.appearanceKeyToCssInJsClass context
           = appearanceKeyToCssInJsClass (store (state (instance now)))
        /\ forall (t : Theme) (k : string),
             In t (themes p) ->
             JsObject.get k (JsObject.orEmpty (elements t)) <> None ->
             JsObject.get k (JsObject.orEmpty (appearanceElements p)) = None ->
             JsObject.get k (effectiveElements p) <> None
             /\ forall els, AppearanceContext.elements context = Some els ->
                            JsObject.get k els = None)
  /\ (let first := [("button", Styles [("color", CSSString "red")])] in
      let second := [("root", ClassName "mine")] in
      let now :=
        afterEvents Sample.defaultVariables Sample.parseVariables
          Sample.parseElements
          (renderProvider (Sample.propsOf "inbox" first) Sample.emptyDocument)
          [Mounted; VariablesEffectRun; ElementsEffectRun; WriteRulesEffectRun;
           AppearanceChanged (appearance (Sample.propsOf "inbox" second));
           VariablesEffectRun; ElementsEffectRun; WriteRulesEffectRun] in
      appearanceElements (props (instance now)) = Some second
      /\ effectiveElements (props (instance now)) = second
      /\ exists context,
           useAppearance (consumerScope now []) = Normal context
           /\ AppearanceContext.elements context = Some first
           /\ JsObject.get "root"
                (AppearanceContext.appearanceKeyToCssInJsClass context)
              = Some "mine").
Proof.
  split.
  - intros defaultVariables parseVariables parseElements p d trace outer now.
    exists (contextValue p (state (instance now))).
    split; [reflexivity|]. split; [reflexivity|]. split.
    + unfold now, afterEvents. cbn [contextValue AppearanceContext.id instance].
      rewrite run_keeps_id. reflexivity.
    + split; [reflexivity|].
      intros t k Hin Hbase Htop. split.
      * unfold effectiveElements. rewrite get_spread2, Htop.
        unfold reduceElements. apply get_reduceElements_from.
        right. exists t. auto.
      * intros els Hels. unfold contextValue in Hels. simpl in Hels.
        injection Hels as <-. exact Htop.
  - intros first second now.
    split; [reflexivity|]. split; [reflexivity|].
    exists (contextValue (Sample.propsOf "inbox" first) (state (instance now))).
    repeat split.
Qed.

(** ** The guards of the effects *)
Section Guards.

Variable defaultVariables : Variables.
Variable parseVariables : Variables -> string -> list string.
Variable parseElements : Elements -> list ElementStyleData.

Let step' := step defaultVariables parseVariables parseElements.
Let run' := run defaultVariables parseVariables parseElements.

Lemma guarded_effects_idle (p : AppearanceProviderProps) (st : ProviderState)
  (d : Dom.Document) :
  styleElement st = None ->
  variablesEffect defaultVariables parseVariables p st = st
  /\ elementsEffect parseElements p st = st
  /\ writeRulesEffect st d = d.
Proof.
  intros Hnull. unfold variablesEffect, elementsEffect, writeRulesEffect.
  rewrite Hnull. auto.
Qed.

Lemma dormant_step (d0 : Dom.Document) (i : Instance) (ev : Event) :
  ev <> Mounted -> dormant d0 i -> dormant d0 (step' i ev).
Proof.
  intros Hev [Hnull [Hreg Hun]].
  destruct (guarded_effects_idle (props i) (state i) (document i) Hnull)
    as [Hv [He Hw]].
  destruct ev; simpl; try congruence.
  - rewrite Hv. repeat split; assumption || apply Hun.
  - rewrite He. repeat split; assumption || apply Hun.
  - rewrite Hw. repeat split; assumption || apply Hun.
  - repeat split; assumption || apply Hun.
  - unfold dispose. rewrite Hreg. repeat split; assumption || apply Hun.
Qed.

Lemma dormant_run (d0 : Dom.Document) (trace : list Event) :
  forall i, ~ In Mounted trace -> dormant d0 i -> dormant d0 (run' i trace).
Proof.
  induction trace as [|ev trace IH]; intros i Hno Hd; simpl.
  - exact Hd.
  - apply IH.
    + intros Hin. apply Hno. right. exact Hin.
    + apply dormant_step; [|exact Hd].
      intros ->. apply Hno. left. reflexivity.
Qed.

Lemma node_kept_step (i : Instance) (ev : Event) :
  styleElement (state i) <> None \/ ev = Mounted ->
  styleElement (state (step' i ev)) <> None.
Proof.
  intros Hhave. destruct ev; simpl.
  - destruct (onMount_node_exists (props i) (state i) (document i))
      as [r [Hr _]].
    destruct (onMount (props i) (state i) (document i)) as [st d]. simpl in *.
    congruence.
  - destruct Hhave as [H|H]; [|discriminate].
    unfold variablesEffect. destruct (styleElement (state i)) eqn:E;
      simpl; congruence.
  - destruct Hhave as [H|H]; [|discriminate].
    unfold elementsEffect. destruct (styleElement (state i)) eqn:E;
      simpl; congruence.
  - destruct Hhave as [H|H]; [exact H | discriminate].
  - destruct Hhave as [H|H]; [exact H | discriminate].
  - destruct Hhave as [H|H]; [exact H | discriminate].
Qed.

Lemma Event_eq_Mounted (ev : Event) : ev = Mounted \/ ev <> Mounted.
Proof. destruct ev; (left; reflexivity) || (right; discriminate). Qed.

Lemma node_kept_run (trace : list Event) :
  forall i, styleElement (state i) <> None \/ In Mounted trace ->
            styleElement (state (run' i trace)) <> None.
Proof.
  induction trace as [|ev trace IH]; intros i Hhave; simpl.
  - destruct Hhave as [H|[]]. exact H.
  - apply IH. destruct (Event_eq_Mounted ev) as [->|Hne].
    + left. apply node_kept_step. right. reflexivity.
    + destruct Hhave as [H|[H|H]].
      * left. apply node_kept_step. left. exact H.
      * congruence.
      * right. exact H.
Qed.

End Guards.

Lemma In_Mounted_or_not (trace : list Event) :
  In Mounted trace \/ ~ In Mounted trace.
Proof.
  induction trace as [|ev trace [IH|IH]].
  - right. intros [].
  - left. right. exact IH.
  - destruct (Event_eq_Mounted ev) as [->|Hne].
    + left. left. reflexivity.
    + right. intros [H|H]; [congruence | exact (IH H)].
Qed.

(** C9. Along every sequence of events of an instance that starts
    unmounted, as long as [onMount] has not run the signal holds no
    element, and then no rule has been computed, the registry is empty
    and the document is what it was: each of the three effects returns at
    its guard.  [onMount] always leaves an element in the signal, so
    whenever a rule, a registry entry or a write has taken effect,
    [onMount] ran before and the signal holds an element. *)
Theorem no_rule_step_without_node
  (defaultVariables : Variables)
  (parseVariables : Variables -> string -> list string)
  (parseElements : Elements -> list ElementStyleData)
  (p : AppearanceProviderProps) (d : Dom.Document) (trace : list Event) :
  let start := {| props := p; state := initialState; document := d |} in
  let final := run defaultVariables parseVariables parseElements start trace in
  (~ In Mounted trace ->
   styleElement (state final) = None
   /\ untouched d (state final) (document final))
  /\ (In Mounted trace -> styleElement (state final) <> None)
  /\ (~ untouched d (state final) (document final) ->
      In Mounted trace /\ styleElement (state final) <> None)
  /\ (forall q st doc,
        styleElement st = None ->
        variablesEffect defaultVariables parseVariables q st = st
        /\ elementsEffect parseElements q st = st
        /\ writeRulesEffect st doc = doc)
  /\ (forall q st doc, styleElement (fst (onMount q st doc)) <> None).
Proof.
  intros start final.
  assert (Hstart : dormant d start).
  { unfold dormant, untouched. simpl. repeat split. }
  assert (Hbefore : ~ In Mounted trace ->
            styleElement (state final) = None
            /\ untouched d (state final) (document final)).
  { intros Hno.
    destruct (dormant_run defaultVariables parseVariables parseElements
                d trace start Hno Hstart) as [Hnull [_ Hun]].
    split; assumption. }
  assert (Hafter : In Mounted trace -> styleElement (state final) <> None).
  { intros Hin. apply node_kept_run. right. exact Hin. }
  split; [exact Hbefore|]. split; [exact Hafter|]. split; [|split].
  - intros Htouched. destruct (In_Mounted_or_not trace) as [Hin|Hno].
    + split; [exact Hin | exact (Hafter Hin)].
    + exfalso. apply Htouched. apply Hbefore, Hno.
  - intros q st doc. apply guarded_effects_idle.
  - intros q st doc.
    destruct (onMount_node_exists q st doc) as [r [Hr _]]. congruence.
Qed.

Lemma no_rule_step_without_node_witness :
  let props :=
    Sample.propsOf "inbox" [("button", Styles [("color", CSSString "red")])] in
  let start :=
    {| props := props; state := initialState; document := Sample.emptyDocument |} in
  let final :=
    run Sample.defaultVariables Sample.parseVariables Sample.parseElements start
      [VariablesEffectRun; ElementsEffectRun; WriteRulesEffectRun; Disposed] in
  styleElement (state final) = None
  /\ untouched Sample.emptyDocument (state final) (document final).
Proof.
  intros props start final.
  refine (proj1 (no_rule_step_without_node Sample.defaultVariables
                   Sample.parseVariables Sample.parseElements props
                   Sample.emptyDocument
                   [VariablesEffectRun; ElementsEffectRun; WriteRulesEffectRun;
                    Disposed]) _).
  simpl. intros [H|[H|[H|[H|[]]]]]; discriminate.
Defined.

(** ** Further facts on objects *)
Section ObjectShape.

Import JsObject.
Local Open Scope list_scope.
Context {V : Type}.
Implicit Types (o a b target src : t V) (k : string) (v : V).

Lemma set_same k v o : get k o = Some v -> set k v o = o.
Proof.
  induction o as [|[k0 v0] rest IH]; simpl; [discriminate|].
  destruct (String.eqb k k0); intros H.
  - injection H as ->. reflexivity.
  - rewrite (IH H). reflexivity.
Qed.

Lemma set_new k v o : get k o = None -> set k v o = o ++ [(k, v)].
Proof.
  induction o as [|[k0 v0] rest IH]; simpl; [reflexivity|].
  destruct (String.eqb k k0); intros H; [discriminate|].
  rewrite (IH H). reflexivity.
Qed.

Lemma ownKeys_set_list k v o :
  ownKeys (set k v o)
  = match get k o with Some _ => ownKeys o | None => ownKeys o ++ [k] end.
Proof.
  induction o as [|[k0 v0] rest IH]; simpl; [reflexivity|].
  destruct (String.eqb_spec k k0) as [->|Hne]; simpl; [reflexivity|].
  rewrite IH. destruct (get k rest); reflexivity.
Qed.

Lemma NoDup_set k v o : NoDup (ownKeys o) -> NoDup (ownKeys (set k v o)).
Proof.
  intros Hnd. rewrite ownKeys_set_list.
  destruct (get k o) eqn:E; [exact Hnd|].
  apply NoDup_app; [exact Hnd | repeat constructor; intros [] |].
  intros x Hx [<-|[]]. apply get_In_keys in Hx. congruence.
Qed.

Lemma NoDup_assign target src :
  NoDup (ownKeys target) -> NoDup (ownKeys (assign target src)).
Proof.
  unfold assign. generalize (ownKeys src) as ks. intros ks. revert target.
  induction ks as [|k ks IH]; intros target Hnd; simpl; [exact Hnd|].
  apply IH. destruct (get k src); [apply NoDup_set|]; exact Hnd.
Qed.

Lemma NoDup_spread2 a b : NoDup (ownKeys (spread2 a b)).
Proof. unfold spread2. apply NoDup_assign, NoDup_assign. constructor. Qed.

(** Writing to an object what it already holds leaves it as it is. *)
Lemma assign_same target src :
  (forall k v, get k src = Some v -> get k target = Some v) ->
  assign target src = target.
Proof.
  intros Hsame. unfold assign. induction (ownKeys src) as [|k ks IH]; simpl.
  - reflexivity.
  - destruct (get k src) as [v|] eqn:E; [|exact IH].
    rewrite (set_same k v target (Hsame k v E)). exact IH.
Qed.

Lemma get_app_absent k (pre suf : t V) :
  get k pre = None -> get k (pre ++ suf) = get k suf.
Proof.
  induction pre as [|[k0 v0] pre IH]; simpl; [reflexivity|].
  destruct (String.eqb k k0); [discriminate | exact IH].
Qed.

Lemma copy_suffix (pre suf : t V) :
  NoDup (ownKeys (pre ++ suf)) ->
  fold_left
    (fun acc k =>
       match get k (pre ++ suf) with Some v => set k v acc | None => acc end)
    (ownKeys suf) pre
  = pre ++ suf.
Proof.
  revert pre. induction suf as [|[k v] suf IH]; intros pre Hnd; simpl.
  - rewrite app_nil_r. reflexivity.
  - assert (Hfresh : get k pre = None).
    { destruct (get k pre) eqn:E; [|reflexivity]. exfalso.
      unfold ownKeys in Hnd. rewrite map_app in Hnd. simpl in Hnd.
      apply NoDup_remove_2 in Hnd. apply Hnd. apply in_or_app. left.
      apply get_In_keys. congruence. }
    rewrite (get_app_absent k pre ((k, v) :: suf) Hfresh). simpl.
    rewrite String.eqb_refl, (set_new k v pre Hfresh).
    replace (pre ++ (k, v) :: suf) with ((pre ++ [(k, v)]) ++ suf)
      by (rewrite <- app_assoc; reflexivity).
    apply IH. rewrite <- app_assoc. exact Hnd.
Qed.

(** The copy of an object into the empty object is the object. *)
Lemma assign_empty o : NoDup (ownKeys o) -> assign empty o = o.
Proof. intros Hnd. apply (copy_suffix [] o). exact Hnd. Qed.

(** Spreading the same source a second time changes nothing. *)
Lemma spread2_again a b : spread2 (spread2 a b) b = spread2 a b.
Proof.
  unfold spread2 at 1.
  rewrite (assign_empty (spread2 a b) (NoDup_spread2 a b)).
  apply assign_same. intros k v Hk. rewrite get_spread2, Hk. reflexivity.
Qed.

End ObjectShape.

(** ** Resolution of the elements *)

Lemma get_reduceElements_exact (k : string) (ts : list Theme) :
  forall acc : Elements,
    JsObject.get k
      (fold_left
         (fun acc obj => JsObject.spread2 acc (JsObject.orEmpty (elements obj)))
         ts acc)
    = match lastThemeElement k ts with
      | Some v => Some v
      | None => JsObject.get k acc
      end.
Proof.
  induction ts as [|t rest IH]; intros acc; simpl.
  - reflexivity.
  - rewrite IH, get_spread2.
    destruct (lastThemeElement k rest); [reflexivity|].
    destruct (JsObject.get k (JsObject.orEmpty (elements t))); reflexivity.
Qed.

(** X1. The styles of a key in the element map given to [parseElements]
    are those of the top-level appearance when it styles the key,
    otherwise those of the last base theme in array order that styles it,
    and the key is absent when no layer styles it. *)
Theorem effective_element_precedence (props : AppearanceProviderProps)
  (k : string) :
  JsObject.get k (effectiveElements props)
  = match JsObject.get k (JsObject.orEmpty (appearanceElements props)) with
    | Some v => Some v
    | None => lastThemeElement k (themes props)
    end.
Proof.
  unfold effectiveElements, reduceElements.
  rewrite get_spread2, get_reduceElements_exact. simpl.
  destruct (JsObject.get k (JsObject.orEmpty (appearanceElements props)));
    [reflexivity|].
  destruct (lastThemeElement k (themes props)); reflexivity.
Qed.

(** ** Recomputation *)
Section Recomputation.

Local Open Scope list_scope.

Variable defaultVariables : Variables.
Variable parseVariables : Variables -> string -> list string.
Variable parseElements : Elements -> list ElementStyleData.

Let variablesEffect' := variablesEffect defaultVariables parseVariables.
Let elementsEffect' := elementsEffect parseElements.
Let recompute' := recompute defaultVariables parseVariables parseElements.

Lemma lastThemeValue_app (k : string) (l1 l2 : list Theme) :
  lastThemeValue k (l1 ++ l2)
  = match lastThemeValue k l2 with
    | Some v => Some v
    | None => lastThemeValue k l1
    end.
Proof.
  induction l1 as [|t l1 IH]; simpl.
  - destruct (lastThemeValue k l2); reflexivity.
  - rewrite IH. destruct (lastThemeValue k l2); reflexivity.
Qed.

Lemma lastThemeElement_app (k : string) (l1 l2 : list Theme) :
  lastThemeElement k (l1 ++ l2)
  = match lastThemeElement k l2 with
    | Some v => Some v
    | None => lastThemeElement k l1
    end.
Proof.
  induction l1 as [|t l1 IH]; simpl.
  - destruct (lastThemeElement k l2); reflexivity.
  - rewrite IH. destruct (lastThemeElement k l2); reflexivity.
Qed.

(** X2. A base theme that is the empty theme counts for nothing, wherever
    it stands in the array of base themes: every token and every key
    resolve as they do without it.  An appearance without base theme, one
    whose base theme is the empty theme and one whose base themes are the
    empty array give the effects the same variables and elements, and a
    base theme given alone gives the same as the array that holds only
    it. *)
Theorem base_theme_normalised (top : Theme) (i : string) :
  let withBase b :=
    {| appearance := Some {| theme := top; baseTheme := b |}; id := i |} in
  let same p q :=
    effectiveVariables defaultVariables p = effectiveVariables defaultVariables q
    /\ effectiveElements p = effectiveElements q in
  (forall (before after : list Theme) (k : string),
      JsObject.get k
        (effectiveVariables defaultVariables
           (withBase (Some (ThemeArray (before ++ emptyTheme :: after)))))
      = JsObject.get k
          (effectiveVariables defaultVariables
             (withBase (Some (ThemeArray (before ++ after)))))
      /\ JsObject.get k
           (effectiveElements
              (withBase (Some (ThemeArray (before ++ emptyTheme :: after)))))
         = JsObject.get k
             (effectiveElements
                (withBase (Some (ThemeArray (before ++ after))))))
  /\ same (withBase None) (withBase (Some (ThemeArray [])))
  /\ same (withBase None) (withBase (Some (SingleTheme emptyTheme)))
  /\ (forall t, same (withBase (Some (SingleTheme t)))
                     (withBase (Some (ThemeArray [t])))).
Proof.
  intros withBase same. split; [|unfold same, withBase; repeat split].
  intros before after k. unfold withBase, effectiveVariables, effectiveElements.
  rewrite !get_spread2, !get_reduceVariables. unfold reduceElements.
  rewrite !get_reduceElements_exact.
  unfold themes, appearanceBaseTheme, appearanceVariables, appearanceElements.
  cbn [appearance baseTheme theme].
  rewrite !lastThemeValue_app, !lastThemeElement_app.
  cbn [lastThemeValue lastThemeElement emptyTheme variables elements
       JsObject.orEmpty JsObject.get JsObject.empty].
  destruct (lastThemeValue k after), (lastThemeElement k after);
    split; reflexivity.
Qed.

Lemma variablesEffect_keeps props st :
  styleElement (variablesEffect' props st) = styleElement st
  /\ store (variablesEffect' props st) = store st
  /\ elementRules (variablesEffect' props st) = elementRules st
  /\ cleanupRegistered (variablesEffect' props st) = cleanupRegistered st.
Proof.
  unfold variablesEffect', variablesEffect.
  destruct (styleElement st) eqn:E; simpl; auto.
Qed.

Lemma elementsEffect_keeps props st :
  styleElement (elementsEffect' props st) = styleElement st
  /\ variableRules (elementsEffect' props st) = variableRules st
  /\ cleanupRegistered (elementsEffect' props st) = cleanupRegistered st.
Proof.
  unfold elementsEffect', elementsEffect.
  destruct (styleElement st) eqn:E; simpl; auto.
Qed.

(** X3. The two rule effects do not depend on each other: run in either
    order, for the same props or for different ones, they leave the same
    state. *)
Theorem rule_effects_commute (p q : AppearanceProviderProps)
  (st : ProviderState) :
  elementsEffect' q (variablesEffect' p st)
  = variablesEffect' p (elementsEffect' q st).
Proof.
  unfold elementsEffect', variablesEffect', elementsEffect, variablesEffect.
  destruct (styleElement st) eqn:E; simpl; rewrite ?E; reflexivity.
Qed.

Lemma variablesEffect_again props st :
  variablesEffect' props (variablesEffect' props st) = variablesEffect' props st.
Proof.
  unfold variablesEffect', variablesEffect.
  destruct (styleElement st) eqn:E; simpl; rewrite ?E; reflexivity.
Qed.

Lemma elementsEffect_again props st :
  elementsEffect' props (elementsEffect' props st) = elementsEffect' props st.
Proof.
  unfold elementsEffect', elementsEffect.
  destruct (styleElement st) eqn:E; simpl; rewrite ?E; [|reflexivity].
  unfold setElementRules, setStore. simpl.
  rewrite spread2_again. reflexivity.
Qed.

Lemma setInnerHTML_again (r : nat) (text : string) (d : Dom.Document) :
  Dom.setInnerHTML r text (Dom.setInnerHTML r text d) = Dom.setInnerHTML r text d.
Proof.
  unfold Dom.setInnerHTML, Dom.updateNode. simpl.
  assert (Hmap : forall l : list Dom.Element,
    map (fun e => if Dom.hasRef r e
                  then {| Dom.nodeRef := Dom.nodeRef e; Dom.tagName := Dom.tagName e;
                          Dom.id := Dom.id e; Dom.innerHTML := text |}
                  else e)
      (map (fun e => if Dom.hasRef r e
                     then {| Dom.nodeRef := Dom.nodeRef e;
                             Dom.tagName := Dom.tagName e;
                             Dom.id := Dom.id e; Dom.innerHTML := text |}
                     else e) l)
    = map (fun e => if Dom.hasRef r e
                    then {| Dom.nodeRef := Dom.nodeRef e;
                            Dom.tagName := Dom.tagName e;
                            Dom.id := Dom.id e; Dom.innerHTML := text |}
                    else e) l).
  { intros l. rewrite map_map. apply map_ext. intros e.
    destruct (Dom.hasRef r e) eqn:E.
    - unfold Dom.hasRef in *. simpl. rewrite E. reflexivity.
    - rewrite E. reflexivity. }
  rewrite !Hmap. reflexivity.
Qed.

(** X4. A second recomputation with props that have not changed, in
    which the helpers return the rules and the items they returned in the
    first, changes nothing: the merge writes the same registry entries in
    place, the signals get the same arrays and the element gets the same
    text, so store, rule signals and document are as the first run left
    them. *)
Theorem recompute_again
  (parseVariables2 : Variables -> string -> list string)
  (parseElements2 : Elements -> list ElementStyleData)
  (props : AppearanceProviderProps) (st : ProviderState) (d : Dom.Document) :
  parseVariables2 (effectiveVariables defaultVariables props) (id props)
  = parseVariables (effectiveVariables defaultVariables props) (id props) ->
  parseElements2 (effectiveElements props)
  = parseElements (effectiveElements props) ->
  let once := recompute' props st d in
  recompute defaultVariables parseVariables2 parseElements2 props
    (fst once) (snd once)
  = once.
Proof.
  intros Hv He.
  assert (Hvar : forall s,
            variablesEffect defaultVariables parseVariables2 props s
            = variablesEffect' props s).
  { intros s. unfold variablesEffect', variablesEffect. rewrite Hv. reflexivity. }
  assert (Hel : forall s,
            elementsEffect parseElements2 props s = elementsEffect' props s).
  { intros s. unfold elementsEffect', elementsEffect. rewrite He. reflexivity. }
  unfold recompute', recompute. cbn [fst snd]. rewrite Hvar, Hel.
  assert (Hstate :
    elementsEffect' props
      (variablesEffect' props (elementsEffect' props (variablesEffect' props st)))
    = elementsEffect' props (variablesEffect' props st)).
  { rewrite <- (rule_effects_commute props props (variablesEffect' props st)).
    rewrite variablesEffect_again, elementsEffect_again. reflexivity. }
  unfold elementsEffect', variablesEffect' in *.
  rewrite Hstate. f_equal.
  unfold writeRulesEffect.
  destruct (styleElement _); [apply setInnerHTML_again | reflexivity].
Qed.

End Recomputation.

(** ** The registry over time *)
Section RegistryOverTime.

Variable defaultVariables : Variables.
Variable parseVariables : Variables -> string -> list string.
Variable parseElements : Elements -> list ElementStyleData.

Let step' := step defaultVariables parseVariables parseElements.
Let run' := run defaultVariables parseVariables parseElements.

(** X5. After the elements effect has run, a consumer under the provider
    reads from the accessor, for each key, the class of the last item
    [parseElements] returned for the key; for a key that has no item it
    reads what the registry held before the effect. *)
Theorem accessor_reads_registry (props : AppearanceProviderProps)
  (st : ProviderState) (n : nat) (outer : Scope) (k : string) :
  styleElement st = Some n ->
  exists context,
    useAppearance (childrenScope props (elementsEffect parseElements props st) outer)
    = Normal context
    /\ JsObject.get k (AppearanceContext.appearanceKeyToCssInJsClass context)
       = match lastClassFor k (parseElements (effectiveElements props)) with
         | Some c => Some c
         | None => JsObject.get k (appearanceKeyToCssInJsClass (store st))
         end.
Proof.
  intros Hnode.
  exists (contextValue props (elementsEffect parseElements props st)).
  split; [reflexivity|]. simpl.
  apply (registry_after_elementsEffect parseElements props st n k Hnode).
Qed.

Lemma onMount_keeps_store props st d :
  store (fst (onMount props st d)) = store st.
Proof.
  destruct (Dom.getElementById (id props) d) as [el|] eqn:E.
  - rewrite (onMount_adopts _ _ _ _ E). reflexivity.
  - rewrite (onMount_creates _ _ _ E). reflexivity.
Qed.

Lemma registry_grows_step (i : Instance) (ev : Event) (k : string) :
  In k (JsObject.ownKeys (registryOf i)) ->
  In k (JsObject.ownKeys (registryOf (step' i ev))).
Proof.
  unfold registryOf. intros Hin. destruct ev; simpl; try exact Hin.
  - pose proof (onMount_keeps_store (props i) (state i) (document i)) as Hst.
    destruct (onMount (props i) (state i) (document i)) as [st d].
    simpl in *. rewrite Hst. exact Hin.
  - unfold variablesEffect. destruct (styleElement (state i)); exact Hin.
  - destruct (styleElement (state i)) as [n|] eqn:E.
    + apply (registry_keys_after_elementsEffect parseElements (props i)
               (state i) n k E). left. exact Hin.
    + unfold elementsEffect. rewrite E. exact Hin.
Qed.

(** X6. Whatever happens to an instance afterwards (effects in any order,
    changes of the appearance, disposal), a key that is in the registry
    stays in the registry. *)
Theorem registry_never_shrinks (i : Instance) (trace : list Event) (k : string) :
  In k (JsObject.ownKeys (registryOf i)) ->
  In k (JsObject.ownKeys (registryOf (run' i trace))).
Proof.
  revert i. induction trace as [|ev trace IH]; intros i Hin; simpl.
  - exact Hin.
  - apply IH. apply registry_grows_step. exact Hin.
Qed.

End RegistryOverTime.

Lemma recompute_again_witness :
  let props :=
    Sample.propsOf "inbox" [("button", Styles [("color", CSSString "red")])] in
  let rerun := recompute Sample.defaultVariables Sample.parseVariables
                 Sample.parseElements props in
  let once := rerun (setStyleElement 1 initialState)
                (withHeadChild (styleNode 1 "inbox" "") Sample.emptyDocument) in
  rerun (fst once) (snd once) = once.
Proof.
  intros props rerun once.
  exact (recompute_again Sample.defaultVariables Sample.parseVariables
           Sample.parseElements Sample.parseVariables Sample.parseElements
           props (setStyleElement 1 initialState)
           (withHeadChild (styleNode 1 "inbox" "") Sample.emptyDocument)
           eq_refl eq_refl).
Defined.

Lemma accessor_reads_registry_witness :
  let props :=
    Sample.propsOf "inbox" [("button", Styles [("color", CSSString "red")])] in
  let st :=
    setStore (fun _ => [("root", "kept")]) (setStyleElement 1 initialState) in
  exists context,
    useAppearance
      (childrenScope props (elementsEffect Sample.parseElements props st) [])
    = Normal context
    /\ JsObject.get "root" (AppearanceContext.appearanceKeyToCssInJsClass context)
       = Some "kept".
Proof.
  intros props st.
  exact (accessor_reads_registry Sample.parseElements props st 1 [] "root"
           eq_refl).
Defined.

Lemma registry_never_shrinks_witness :
  let props :=
    Sample.propsOf "inbox" [("button", Styles [("color", CSSString "red")])] in
  let mounted :=
    run Sample.defaultVariables Sample.parseVariables Sample.parseElements
      {| props := props; state := initialState;
         document := Sample.emptyDocument |}
      [Mounted; ElementsEffectRun] in
  In "button"
    (JsObject.ownKeys
       (registryOf
          (run Sample.defaultVariables Sample.parseVariables Sample.parseElements
             mounted
             [AppearanceChanged None; VariablesEffectRun; ElementsEffectRun;
              WriteRulesEffectRun; Disposed]))).
Proof.
  intros props mounted.
  apply (registry_never_shrinks Sample.defaultVariables Sample.parseVariables
           Sample.parseElements mounted).
  vm_compute. left. reflexivity.
Defined.

(** ** What the provider leaves alone *)
Section Frame.

Local Open Scope list_scope.

Lemma shape_update (r : nat) (text : string) (l : list Dom.Element) :
  map shapeOf
    (map (fun e => if Dom.hasRef r e
                   then {| Dom.nodeRef := Dom.nodeRef e;
                           Dom.tagName := Dom.tagName e;
                           Dom.id := Dom.id e; Dom.innerHTML := text |}
                   else e) l)
  = map shapeOf l.
Proof.
  rewrite map_map. apply map_ext. intros e.
  destruct (Dom.hasRef r e); reflexivity.
Qed.

Lemma find_update_other (r r' : nat) (f : Dom.Element -> Dom.Element)
  (l : list Dom.Element) :
  r' <> r ->
  (forall e, Dom.nodeRef (f e) = Dom.nodeRef e) ->
  find (Dom.hasRef r') (map (fun e => if Dom.hasRef r e then f e else e) l)
  = find (Dom.hasRef r') l.
Proof.
  intros Hne Hkeep. induction l as [|e l IH]; simpl; [reflexivity|].
  destruct (Dom.hasRef r e) eqn:E.
  - assert (Hother : Dom.hasRef r' e = false).
    { unfold Dom.hasRef in *. apply Nat.eqb_eq in E. apply Nat.eqb_neq. lia. }
    assert (Hother' : Dom.hasRef r' (f e) = false).
    { unfold Dom.hasRef in *. rewrite Hkeep. exact Hother. }
    rewrite Hother, Hother'. exact IH.
  - destruct (Dom.hasRef r' e); [reflexivity | exact IH].
Qed.

(** X7. The rule-writing effect changes texts only, and only the text of
    the element the signal holds: every element keeps its place, its
    reference, its tag and its id, and an element other than the held one
    is found as it was. *)
Theorem write_changes_one_text (st : ProviderState) (d : Dom.Document) :
  skeleton (writeRulesEffect st d) = skeleton d
  /\ forall r : nat,
       styleElement st <> Some r ->
       Dom.lookupNode r (writeRulesEffect st d) = Dom.lookupNode r d.
Proof.
  unfold writeRulesEffect. destruct (styleElement st) as [held|].
  - split.
    + unfold skeleton, Dom.setInnerHTML, Dom.updateNode. simpl.
      rewrite !shape_update. reflexivity.
    + intros r Hr. unfold Dom.lookupNode, Dom.setInnerHTML.
      rewrite allNodes_updateNode.
      apply find_update_other; [congruence | reflexivity].
  - split; reflexivity.
Qed.

(** X8. [onMount] changes no element the document has.  It leaves [body]
    and the elements outside the document as they are, and [head] either
    as it is, when the lookup found an element, or with one more child at
    its end: a [style] element with the id and no text, under a reference
    no element had.  It leaves the store and the rule signals as they
    are. *)
Theorem onMount_adds_at_most_one (props : AppearanceProviderProps)
  (st : ProviderState) (d : Dom.Document) :
  let after := onMount props st d in
  Dom.body (snd after) = Dom.body d
  /\ Dom.detached (snd after) = Dom.detached d
  /\ ((exists el, Dom.getElementById (id props) d = Some el
                  /\ Dom.head (snd after) = Dom.head d
                  /\ styleElement (fst after) = Some (Dom.nodeRef el)
                  /\ cleanupRegistered (fst after) = cleanupRegistered st)
      \/ (Dom.getElementById (id props) d = None
          /\ Dom.head (snd after)
             = Dom.head d ++ [styleNode (Dom.freshRef d) (id props) ""]
          /\ Dom.lookupNode (Dom.freshRef d) d = None
          /\ styleElement (fst after) = Some (Dom.freshRef d)
          /\ cleanupRegistered (fst after) = true))
  /\ store (fst after) = store st
  /\ variableRules (fst after) = variableRules st
  /\ elementRules (fst after) = elementRules st.
Proof.
  intros after. unfold after.
  destruct (Dom.getElementById (id props) d) as [el|] eqn:E.
  - rewrite (onMount_adopts _ _ _ _ E). simpl.
    split; [reflexivity|]. split; [reflexivity|]. split; [|repeat split].
    left. exists el. repeat split.
  - rewrite (onMount_creates _ _ _ E). simpl.
    split; [reflexivity|]. split; [reflexivity|]. split; [|repeat split].
    right. repeat split.
    unfold Dom.lookupNode. apply find_unused.
    intros e He. apply freshRef_unused, He.
Qed.

End Frame.

Lemma write_changes_one_text_witness :
  let st := setVariableRules ["#inbox{}"] (setStyleElement 1 initialState) in
  let d :=
    {| Dom.head := [styleNode 1 "inbox" ""];
       Dom.body := [styleNode 2 "other" "kept"];
       Dom.detached := [] |} in
  Dom.lookupNode 2 (writeRulesEffect st d) = Dom.lookupNode 2 d.
Proof.
  intros st d.
  apply (proj2 (write_changes_one_text st d) 2). discriminate.
Defined.

(** ** Instances that share a document *)
Section SharedDocument.

Local Open Scope list_scope.

Variable defaultVariables : Variables.
Variable parseVariables : Variables -> string -> list string.
Variable parseElements : Elements -> list ElementStyleData.

Let render := mountAndRender defaultVariables parseVariables parseElements.
Let rerun := recompute defaultVariables parseVariables parseElements.
Let text := cssText defaultVariables parseVariables parseElements.

Lemma skeleton_writeRulesEffect (st : ProviderState) (d : Dom.Document) :
  skeleton (writeRulesEffect st d) = skeleton d.
Proof.
  unfold writeRulesEffect. destruct (styleElement st); [|reflexivity].
  unfold skeleton, Dom.setInnerHTML, Dom.updateNode. simpl.
  rewrite !shape_update. reflexivity.
Qed.

(** The document an adopting first render leaves. *)
Lemma render_adopts_document props d el :
  Dom.getElementById (id props) d = Some el ->
  snd (render props d) = Dom.setInnerHTML (Dom.nodeRef el) (text props) d.
Proof.
  intros Hsome. unfold render, mountAndRender.
  rewrite (onMount_adopts _ _ _ _ Hsome). unfold recompute. cbn [fst snd].
  unfold writeRulesEffect. rewrite effects_keep_styleElement.
  cbn [styleElement setStyleElement].
  destruct (rules_after_effects defaultVariables parseVariables parseElements
              props (setStyleElement (Dom.nodeRef el) initialState)
              (Dom.nodeRef el) eq_refl) as [-> ->].
  reflexivity.
Qed.

Lemma find_hasId_update (i : string) (r : nat) (t : string)
  (l : list Dom.Element) :
  let g := fun e => if Dom.hasRef r e
                    then {| Dom.nodeRef := Dom.nodeRef e;
                            Dom.tagName := Dom.tagName e;
                            Dom.id := Dom.id e; Dom.innerHTML := t |}
                    else e in
  find (Dom.hasId i) (map g l) = option_map g (find (Dom.hasId i) l).
Proof.
  intros g. induction l as [|e l IH]; simpl; [reflexivity|].
  assert (Hid : Dom.hasId i (g e) = Dom.hasId i e).
  { unfold g. destruct (Dom.hasRef r e); reflexivity. }
  rewrite Hid. destruct (Dom.hasId i e); [reflexivity | exact IH].
Qed.

(** Writing a text moves no id: the lookup finds the same element. *)
Lemma getElementById_setInnerHTML i r t d el :
  Dom.getElementById i d = Some el ->
  exists el', Dom.getElementById i (Dom.setInnerHTML r t d) = Some el'
              /\ Dom.nodeRef el' = Dom.nodeRef el.
Proof.
  unfold Dom.getElementById. destruct (String.eqb i ""); [discriminate|].
  intros Hfind. unfold Dom.setInnerHTML, Dom.updateNode, Dom.treeOrder. simpl.
  rewrite <- map_app, find_hasId_update.
  unfold Dom.treeOrder in Hfind. rewrite Hfind. simpl.
  eexists. split; [reflexivity|].
  destruct (Dom.hasRef r el); reflexivity.
Qed.

(** After its first render an instance with a non-empty id holds the
    element the lookup of its id finds. *)
Lemma render_holds_looked_up props d :
  id props <> "" ->
  exists el, Dom.getElementById (id props) (snd (render props d)) = Some el
             /\ styleElement (fst (render props d)) = Some (Dom.nodeRef el).
Proof.
  intros Hne. destruct (Dom.getElementById (id props) d) as [el|] eqn:E.
  - destruct (render_adopts defaultVariables parseVariables parseElements
                props d el E) as [Hnode _].
    fold render in Hnode. rewrite Hnode, (render_adopts_document props d el E).
    destruct (getElementById_setInnerHTML (id props) (Dom.nodeRef el)
                (text props) d el E) as [el' [Hfind Href]].
    exists el'. rewrite Href. auto.
  - destruct (render_creates defaultVariables parseVariables parseElements
                props d E) as [Hdoc [Hnode _]].
    fold render in Hdoc, Hnode. fold text in Hdoc. rewrite Hdoc, Hnode.
    exists (styleNode (Dom.freshRef d) (id props) (text props)).
    split; [|reflexivity].
    apply getElementById_created; [exact Hne|].
    apply (getElementById_none _ d Hne). exact E.
Qed.

(** X9. Two instances with the same non-empty id share one element, and
    the one that renders last owns its text: after the first render of
    the second instance both signals hold the same element, the second
    instance has registered no clean-up, no element was added, moved or
    renamed, and the text the first instance reads in its element is the
    text of the second instance's props. *)
Theorem shared_id_last_writer_wins (p1 p2 : AppearanceProviderProps)
  (d : Dom.Document) :
  id p2 = id p1 -> id p1 <> "" ->
  let first := render p1 d in
  let second := render p2 (snd first) in
  styleElement (fst second) = styleElement (fst first)
  /\ cleanupRegistered (fst second) = false
  /\ skeleton (snd second) = skeleton (snd first)
  /\ styleText (fst first, snd second) = Some (text p2).
Proof.
  intros Hid Hne first second.
  destruct (render_holds_looked_up p1 d Hne) as [el [Hfind Hnode]].
  fold first in Hfind, Hnode. rewrite <- Hid in Hfind.
  destruct (render_adopts defaultVariables parseVariables parseElements
              p2 (snd first) el Hfind) as [Hnode2 Hreg2].
  fold render in Hnode2, Hreg2. fold second in Hnode2, Hreg2.
  split; [congruence|]. split; [exact Hreg2|]. split.
  - unfold second. rewrite (render_adopts_document p2 (snd first) el Hfind).
    unfold skeleton, Dom.setInnerHTML, Dom.updateNode. simpl.
    rewrite !shape_update. reflexivity.
  - pose proof (styleText_mountAndRender defaultVariables parseVariables
                  parseElements p2 (snd first)) as Htext.
    fold render in Htext. fold second in Htext.
    unfold styleText in Htext. rewrite Hnode2 in Htext.
    unfold styleText. cbn [fst snd]. rewrite Hnode. exact Htext.
Qed.

(** X11. When the instance that created the element is disposed of while
    an instance that adopted it goes on, the recomputations of the
    adopter write into an element that is outside the document: the
    document holds the elements it held before either instance was
    mounted, the lookup of the id finds nothing, and the adopter still
    reads its rules in the element it holds. *)
Theorem adopter_writes_outside_document (p1 p2 p3 : AppearanceProviderProps)
  (d : Dom.Document) :
  id p2 = id p1 -> id p3 = id p1 -> id p1 <> "" ->
  Dom.nodesWithId (id p1) d = [] ->
  let creator := render p1 d in
  let adopter := render p2 (snd creator) in
  let left := dispose p1 (fst creator) (snd adopter) in
  let later := rerun p3 (fst adopter) left in
  Dom.treeOrder (snd later) = Dom.treeOrder d
  /\ Dom.getElementById (id p1) (snd later) = None
  /\ styleText later = Some (text p3).
Proof.
  intros Hid2 Hid3 Hne Hnil creator adopter left later.
  set (r := Dom.freshRef d).
  assert (Hfresh : forall e, In e (Dom.allNodes d) -> Dom.hasRef r e = false).
  { intros e He. apply freshRef_unused, He. }
  destruct (render_creates defaultVariables parseVariables parseElements
              p1 d (no_node_no_element _ _ Hnil)) as [Hdoc1 [_ Hreg1]].
  fold render in Hdoc1, Hreg1. fold creator in Hdoc1, Hreg1. fold r in Hdoc1.
  assert (Hfind : Dom.getElementById (id p2) (snd creator)
                  = Some (styleNode r (id p1)
                            (cssText defaultVariables parseVariables
                               parseElements p1))).
  { rewrite Hdoc1, Hid2. apply getElementById_created; assumption. }
  destruct (render_adopts defaultVariables parseVariables parseElements
              p2 (snd creator) _ Hfind) as [Hnode2 _].
  fold render in Hnode2. fold adopter in Hnode2. simpl in Hnode2.
  assert (Hdoc2 : snd adopter = withHeadChild (styleNode r (id p1) (text p2)) d).
  { unfold adopter. rewrite (render_adopts_document p2 (snd creator) _ Hfind).
    rewrite Hdoc1. simpl. apply setInnerHTML_created. exact Hfresh. }
  assert (Hleft : left
                  = {| Dom.head := Dom.head d; Dom.body := Dom.body d;
                       Dom.detached :=
                         Dom.detached d ++ [styleNode r (id p1) (text p2)] |}).
  { unfold left, dispose, removeStyleElement.
    rewrite Hreg1, Hdoc2, getElementById_created by assumption. simpl.
    apply remove_created. exact Hfresh. }
  assert (Hexists : Dom.lookupNode r left <> None).
  { apply (lookupNode_of_member left (styleNode r (id p1) (text p2))).
    rewrite Hleft. unfold Dom.allNodes. simpl. rewrite !in_app_iff. simpl. auto. }
  assert (Htree : Dom.treeOrder (snd later) = Dom.treeOrder d).
  { unfold later, rerun, recompute. cbn [fst snd].
    unfold writeRulesEffect. rewrite effects_keep_styleElement, Hnode2.
    rewrite Hleft. unfold Dom.treeOrder, Dom.setInnerHTML, Dom.updateNode. simpl.
    rewrite !update_unused; [reflexivity | |];
      intros e He; apply Hfresh; unfold Dom.allNodes; rewrite !in_app_iff; auto. }
  split; [exact Htree|]. split.
  - unfold Dom.getElementById. rewrite Htree.
    apply (no_node_no_element _ d Hnil).
  - apply (styleText_recompute defaultVariables parseVariables parseElements
             p3 (fst adopter) left r Hnode2 Hexists).
Qed.

End SharedDocument.

Lemma shared_id_last_writer_wins_witness :
  let render := mountAndRender Sample.defaultVariables Sample.parseVariables
                  Sample.parseElements in
  let p1 := Sample.propsOf "inbox" [("button", Styles [("color", CSSString "red")])] in
  let p2 := Sample.propsOf "inbox" [] in
  let first := render p1 Sample.emptyDocument in
  let second := render p2 (snd first) in
  styleElement (fst second) = styleElement (fst first)
  /\ cleanupRegistered (fst second) = false
  /\ skeleton (snd second) = skeleton (snd first)
  /\ styleText (fst first, snd second) = Some "#inbox{--colorPrimary:#000}".
Proof.
  intros render p1 p2 first second.
  refine (shared_id_last_writer_wins Sample.defaultVariables
            Sample.parseVariables Sample.parseElements p1 p2
            Sample.emptyDocument _ _).
  - reflexivity.
  - discriminate.
Defined.

Lemma adopter_writes_outside_document_witness :
  let render := mountAndRender Sample.defaultVariables Sample.parseVariables
                  Sample.parseElements in
  let rerun := recompute Sample.defaultVariables Sample.parseVariables
                 Sample.parseElements in
  let p := Sample.propsOf "inbox" [] in
  let p3 := Sample.propsOf "inbox" [("root", Styles [("color", CSSString "red")])] in
  let creator := render p Sample.emptyDocument in
  let adopter := render p (snd creator) in
  let left := dispose p (fst creator) (snd adopter) in
  let later := rerun p3 (fst adopter) left in
  Dom.treeOrder (snd later) = []
  /\ Dom.getElementById "inbox" (snd later) = None
  /\ styleText later
     = Some "#inbox{--colorPrimary:#000} .nv-color:red{color:red}".
Proof.
  intros render rerun p p3 creator adopter left later.
  refine (adopter_writes_outside_document Sample.defaultVariables
            Sample.parseVariables Sample.parseElements p p p3
            Sample.emptyDocument _ _ _ _).
  - reflexivity.
  - reflexivity.
  - discriminate.
  - reflexivity.
Defined.

(** ** Disposal *)
Section Disposal.

Local Open Scope list_scope.

Lemma treeOrder_remove (r : nat) (d : Dom.Document) :
  Dom.treeOrder (Dom.remove r d) = Dom.without r (Dom.treeOrder d).
Proof.
  unfold Dom.remove.
  destruct (find (Dom.hasRef r) (Dom.treeOrder d)) eqn:E.
  - unfold Dom.treeOrder. simpl. rewrite without_app. reflexivity.
  - symmetry. apply without_unused. intros e He.
    apply (find_none _ _ E) in He. exact He.
Qed.

Lemma filter_swap (p q : Dom.Element -> bool) (l : list Dom.Element) :
  filter p (filter q l) = filter q (filter p l).
Proof.
  induction l as [|e l IH]; simpl; [reflexivity|].
  destruct (q e) eqn:Eq, (p e) eqn:Ep; simpl; rewrite ?Eq, ?Ep, IH; reflexivity.
Qed.

Lemma nodesWithId_remove (i : string) (r : nat) (d : Dom.Document) :
  Dom.nodesWithId i (Dom.remove r d) = Dom.without r (Dom.nodesWithId i d).
Proof.
  unfold Dom.nodesWithId. rewrite treeOrder_remove.
  unfold Dom.without. apply filter_swap.
Qed.

(** X10. In a document where no two elements share a non-empty id, the
    clean-up leaves no element of the instance's id, so running the
    disposal a second time changes nothing. *)
Theorem dispose_again (props : AppearanceProviderProps) (st : ProviderState)
  (d : Dom.Document) :
  atMostOnePerId d ->
  dispose props st (dispose props st d) = dispose props st d
  /\ (cleanupRegistered st = true ->
      Dom.getElementById (id props) (dispose props st d) = None).
Proof.
  intros Hone. unfold dispose.
  destruct (cleanupRegistered st); [|split; [reflexivity | discriminate]].
  assert (Hgone : Dom.getElementById (id props) (removeStyleElement props d)
                  = None).
  { unfold removeStyleElement.
    destruct (Dom.getElementById (id props) d) as [el|] eqn:E; [|exact E].
    destruct (getElementById_member _ _ _ E) as [Hin [Hid Hne]].
    apply (getElementById_none _ _ Hne). rewrite nodesWithId_remove.
    assert (Hmem : In el (Dom.nodesWithId (id props) d)).
    { unfold Dom.nodesWithId. apply filter_In. split; [exact Hin|].
      apply hasId_true. exact Hid. }
    specialize (Hone (id props) Hne).
    destruct (Dom.nodesWithId (id props) d) as [|e [|e' l]].
    - destruct Hmem.
    - destruct Hmem as [->|[]]. unfold Dom.without, Dom.hasRef. simpl.
      rewrite Nat.eqb_refl. reflexivity.
    - simpl in Hone. lia. }
  split; [|intros _; exact Hgone].
  unfold removeStyleElement at 1. rewrite Hgone. reflexivity.
Qed.

Lemma NoDup_map_same {A B : Type} (f : A -> B) (l : list A) (x y : A) :
  NoDup (map f l) -> In x l -> In y l -> f x = f y -> x = y.
Proof.
  induction l as [|a l IH]; simpl; intros Hnd Hx Hy Hf; [destruct Hx|].
  inversion Hnd as [|? ? Hnotin Hnd']; subst.
  destruct Hx as [->|Hx], Hy as [->|Hy].
  - reflexivity.
  - exfalso. apply Hnotin. rewrite Hf. apply in_map, Hy.
  - exfalso. apply Hnotin. rewrite <- Hf. apply in_map, Hx.
  - apply IH; assumption.
Qed.

Lemma filter_without_other (p : Dom.Element -> bool) (r : nat)
  (l : list Dom.Element) :
  (forall e, In e l -> p e = true -> Dom.hasRef r e = false) ->
  filter p (Dom.without r l) = filter p l.
Proof.
  induction l as [|e l IH]; intros Hother; simpl; [reflexivity|].
  assert (IH' : filter p (Dom.without r l) = filter p l).
  { apply IH. intros e' He'. apply Hother. right. exact He'. }
  destruct (p e) eqn:Ep.
  - rewrite (Hother e (or_introl eq_refl) Ep). simpl. rewrite Ep, IH'.
    reflexivity.
  - destruct (Dom.hasRef r e); simpl; rewrite ?Ep; exact IH'.
Qed.

(** X12. An instance neither adds nor removes an element of an id other
    than its own: [onMount] leaves the elements of another id as they
    are, and so does the disposal when no two elements of the document
    are the same element. *)
Theorem other_ids_undisturbed (props : AppearanceProviderProps)
  (st : ProviderState) (d : Dom.Document) (i : string) :
  id props <> i ->
  Dom.nodesWithId i (snd (onMount props st d)) = Dom.nodesWithId i d
  /\ (refsUnique d ->
      Dom.nodesWithId i (dispose props st d) = Dom.nodesWithId i d).
Proof.
  intros Hother. split.
  - destruct (Dom.getElementById (id props) d) as [el|] eqn:E.
    + rewrite (onMount_adopts _ _ _ _ E). reflexivity.
    + rewrite (onMount_creates _ _ _ E). simpl.
      rewrite nodesWithId_withHeadChild.
      assert (Hid : Dom.hasId i (styleNode (Dom.freshRef d) (id props) "")
                    = false).
      { unfold Dom.hasId. simpl. apply String.eqb_neq. exact Hother. }
      rewrite Hid. simpl. unfold Dom.nodesWithId, Dom.treeOrder.
      rewrite filter_app. reflexivity.
  - intros Huniq. unfold dispose, removeStyleElement.
    destruct (cleanupRegistered st); [|reflexivity].
    destruct (Dom.getElementById (id props) d) as [el|] eqn:E; [|reflexivity].
    destruct (getElementById_member _ _ _ E) as [Hin [Hid _]].
    unfold Dom.nodesWithId. rewrite treeOrder_remove.
    apply filter_without_other. intros e He Hide.
    destruct (Dom.hasRef (Dom.nodeRef el) e) eqn:Href; [|reflexivity].
    exfalso. apply hasRef_true in Href. apply hasId_true in Hide.
    assert (e = el) by (apply (NoDup_map_same Dom.nodeRef _ e el Huniq); assumption).
    subst e. congruence.
Qed.

End Disposal.

Lemma dispose_again_witness :
  let p := Sample.propsOf "inbox" [] in
  let mounted := onMount p initialState Sample.emptyDocument in
  dispose p (fst mounted) (dispose p (fst mounted) (snd mounted))
  = dispose p (fst mounted) (snd mounted)
  /\ (cleanupRegistered (fst mounted) = true ->
      Dom.getElementById (id p) (dispose p (fst mounted) (snd mounted)) = None).
Proof.
  intros p mounted.
  apply (dispose_again p (fst mounted) (snd mounted)).
  intros i Hne. unfold Dom.nodesWithId. simpl.
  destruct (Dom.hasId i _); simpl; lia.
Defined.

Lemma other_ids_undisturbed_witness :
  let p := Sample.propsOf "inbox" [] in
  let d := withHeadChild (styleNode 1 "other" "a{}") Sample.emptyDocument in
  Dom.nodesWithId "other" (snd (onMount p initialState d))
  = Dom.nodesWithId "other" d
  /\ (refsUnique d ->
      Dom.nodesWithId "other" (dispose p initialState d)
      = Dom.nodesWithId "other" d).
Proof.
  intros p d.
  apply (other_ids_undisturbed p initialState d "other"). discriminate.
Defined.
